(** * SQL.py: the restaurant-management database script

    A shallow embedding of [SQL.py].  The script talks to three libraries:
    [sqlite3] (the connection and the SQL statements it is given), [random]
    and [faker] (the sources of the generated values).  The SQL engine is
    modelled as far as the statements of the script exercise it; the two
    random sources are an oracle indexed by the number of draws made so far,
    so that every execution of the script is the run of the model under
    some oracle.  A [float] is the rational it denotes, and arithmetic on
    floats is exact; the while loop of the script runs on fuel. *)

From Stdlib Require Import ZArith QArith String List.
From stdpp Require Import gmap strings list fin_maps pretty.

Local Open Scope string_scope.
Local Open Scope Z_scope.

(** ** SQL values, constraints and schemas *)

(** What a cell of a table holds: Python's [None] is [VNull], an [int] is
    [VInt], a [float] is [VReal] (as the rational it denotes), a [str] is
    [VText]; a [date] is adapted by [sqlite3] to its ISO text. *)
Inductive value :=
  | VNull
  | VInt (z : Z)
  | VReal (q : Q)
  | VText (s : string).

Definition Qltb (x y : Q) : bool := (Qnum x * QDen y <? Qnum y * QDen x)%Z.

Definition value_eqb (v w : value) : bool :=
  match v, w with
  | VInt a, VInt b => (a =? b)%Z
  | VReal a, VReal b => Qeq_bool a b
  | VInt a, VReal b | VReal b, VInt a => Qeq_bool (inject_Z a) b
  | VText a, VText b => String.eqb a b
  | _, _ => false
  end.

(** The CHECK expressions the schema uses.  A CHECK fails only when its
    expression is false: on NULL it is NULL, and the row is accepted. *)
Inductive check :=
  | InList (allowed : list string)
  | Gt0
  | Ge0
  | Between (lo hi : Z).

Definition eval_check (ck : check) (v : value) : bool :=
  match v with
  | VNull => true
  | VInt z =>
      match ck with
      | InList _ => false
      | Gt0 => 0 <? z
      | Ge0 => 0 <=? z
      | Between lo hi => (lo <=? z) && (z <=? hi)
      end
  | VReal q =>
      match ck with
      | InList _ => false
      | Gt0 => Qltb 0 q
      | Ge0 => Qle_bool 0 q
      | Between lo hi => Qle_bool (inject_Z lo) q && Qle_bool q (inject_Z hi)
      end
  | VText s =>
      match ck with
      | InList allowed => existsb (String.eqb s) allowed
      | Gt0 | Ge0 => true      (* text sorts after every number *)
      | Between _ _ => false
      end
  end.

Inductive sqltype := INTEGER | TEXT | REAL | DATE.

Inductive constraint :=
  | NotNull
  | Unique
  | Check (ck : check)
  | Default (v : value).

Record column := Col {
  c_name : string;
  c_type : sqltype;
  c_cons : list constraint
}.

(** FOREIGN KEY (fk_col) REFERENCES fk_table(fk_ref). *)
Record fkey := References {
  fk_col : string;
  fk_table : string;
  fk_ref : string
}.

(** A CREATE TABLE body: the INTEGER PRIMARY KEY AUTOINCREMENT column when
    there is one, the other columns, the columns of a table-level PRIMARY KEY,
    and the foreign keys. *)
Record schema := Schema {
  s_autoinc : option string;
  s_cols : list column;
  s_pkey : list string;
  s_fkeys : list fkey
}.

Definition row := list (string * value).

Fixpoint row_get (c : string) (r : row) : option value :=
  match r with
  | [] => None
  | (k, v) :: r' => if String.eqb k c then Some v else row_get c r'
  end.

(** A table: its schema, its entry in [sqlite_sequence] (the largest rowid
    AUTOINCREMENT has handed out, 0 for a new table; the entry goes away
    with the table) and its rows in insertion order. *)
Record table := Table {
  t_schema : schema;
  t_seq : Z;
  t_rows : list row
}.

(** A database file: tables by name, and indexes by name with the table and
    the column each is on.  A file is taken to hold nothing else, and no
    index named like a table. *)
Record database := Database {
  tables : gmap string table;
  indexes : gmap string (string * string)
}.

Definition empty_db : database := Database ∅ ∅.

(** The statements the script issues. *)
Inductive stmt :=
  | DropTableIfExists (t : string)
  | CreateTableIfNotExists (t : string) (sch : schema)
  | InsertInto (t : string) (cols : list string) (vals : list value)
  | CreateIndexIfNotExists (i : string) (t : string) (c : string).

(** What the script can raise. *)
Inductive exn :=
  | IntegrityError        (* sqlite3: a constraint failed *)
  | OperationalError      (* sqlite3: no such table, name taken *)
  | IndexError            (* a list indexed out of range *)
  | KeyError.             (* a key missing from a dict *)

(** ** The engine *)

Fixpoint zip_lookup (c : string) (cols : list string) (vals : list value)
  : option value :=
  match cols, vals with
  | k :: cols', v :: vals' =>
      if String.eqb k c then Some v else zip_lookup c cols' vals'
  | _, _ => None
  end.

Definition default_of (cons : list constraint) : value :=
  fold_right (fun k acc => match k with Default v => v | _ => acc end) VNull cons.

(** The row an INSERT stores: the fresh rowid in the AUTOINCREMENT column,
    then for every other column the value given for it, or its default. *)
Definition build_row (sch : schema) (id : Z) (cols : list string)
  (vals : list value) : row :=
  (match s_autoinc sch with Some k => [(k, VInt id)] | None => [] end ++
   map (fun c => (c_name c,
                  match zip_lookup (c_name c) cols vals with
                  | Some v => v
                  | None => default_of (c_cons c)
                  end)) (s_cols sch))%list.

Definition cell (c : string) (r : row) : value :=
  match row_get c r with Some v => v | None => VNull end.

(** UNIQUE: no stored row has an equal value in the column; NULLs are all
    distinct from one another. *)
Definition unique_ok (c : string) (rows : list row) (r : row) : bool :=
  match cell c r with
  | VNull => true
  | v => forallb (fun r' => negb (value_eqb (cell c r') v)) rows
  end.

Definition column_ok (rows : list row) (r : row) (c : column) : bool :=
  let v := cell (c_name c) r in
  forallb (fun k =>
    match k with
    | NotNull => match v with VNull => false | _ => true end
    | Unique => unique_ok (c_name c) rows r
    | Check ck => eval_check ck v
    | Default _ => true
    end) (c_cons c).

(** A table-level PRIMARY KEY: no stored row agrees on all its columns. *)
Definition pkey_ok (pk : list string) (rows : list row) (r : row) : bool :=
  match pk with
  | [] => true
  | _ => forallb (fun r' =>
           negb (forallb (fun c => value_eqb (cell c r') (cell c r)) pk)) rows
  end.

(** INSERT INTO t (cols) VALUES (vals).  Foreign keys are declared but not
    enforced: the script never turns [PRAGMA foreign_keys] on. *)
Definition insert_into (t : string) (cols : list string) (vals : list value)
  (d : database) : exn + (row * database) :=
  match tables d !! t with
  | None => inl OperationalError
  | Some tb =>
      if negb (forallb (fun c => existsb (fun k => String.eqb (c_name k) c)
                                   (s_cols (t_schema tb))) cols)
         || negb (length cols =? length vals)%nat
      then inl OperationalError
      else
        let id := t_seq tb + 1 in
        let r := build_row (t_schema tb) id cols vals in
        if forallb (column_ok (t_rows tb) r) (s_cols (t_schema tb))
           && pkey_ok (s_pkey (t_schema tb)) (t_rows tb) r
        then inr (r, Database
                   (<[t := Table (t_schema tb) id (t_rows tb ++ [r])%list]> (tables d))
                   (indexes d))
        else inl IntegrityError
  end.

Definition drop_table_if_exists (t : string) (d : database) : database :=
  Database (delete t (tables d))
           (filter (fun kv => fst (snd kv) ≠ t) (indexes d)).

Definition create_table_if_not_exists (t : string) (sch : schema)
  (d : database) : database :=
  match tables d !! t with
  | Some _ => d
  | None => Database (<[t := Table sch 0 []]> (tables d)) (indexes d)
  end.

Definition create_index_if_not_exists (i t c : string) (d : database)
  : exn + database :=
  match indexes d !! i with
  | Some _ => inr d
  | None =>
      match tables d !! t with
      | Some _ => inr (Database (tables d) (<[i := (t, c)]> (indexes d)))
      | None => inl OperationalError
      end
  end.

(** One statement on a database: the database after it and, for an INSERT,
    the row it stored. *)
Definition run_stmt (st : stmt) (d : database) : exn + (option row * database) :=
  match st with
  | DropTableIfExists t => inr (None, drop_table_if_exists t d)
  | CreateTableIfNotExists t sch => inr (None, create_table_if_not_exists t sch d)
  | InsertInto t cols vals =>
      match insert_into t cols vals d with
      | inl e => inl e
      | inr (r, d') => inr (Some r, d')
      end
  | CreateIndexIfNotExists i t c =>
      match create_index_if_not_exists i t c d with
      | inl e => inl e
      | inr d' => inr (None, d')
      end
  end.

(** ** The connection

    [sqlite3] with its default (legacy) transaction control: before an
    INSERT the module opens a transaction when none is open; any other
    statement is passed on as it is, so that outside a transaction it takes
    effect on the file at once, and inside one it joins it.  [commit] writes
    the open transaction to the file; a connection that goes away with a
    transaction open loses it. *)
Record connection := Connection {
  disk : database;
  txn : option database
}.

Definition connect (file : database) : connection := Connection file None.

Definition working (c : connection) : database :=
  match txn c with Some d => d | None => disk c end.

Definition is_dml (st : stmt) : bool :=
  match st with InsertInto _ _ _ => true | _ => false end.

Definition begin_if_dml (st : stmt) (c : connection) : connection :=
  if is_dml st then Connection (disk c) (Some (working c)) else c.

Definition store (d : database) (c : connection) : connection :=
  match txn c with
  | Some _ => Connection (disk c) (Some d)
  | None => Connection d None
  end.

Definition execute (st : stmt) (c : connection)
  : exn * connection + option row * connection :=
  let c1 := begin_if_dml st c in
  match run_stmt st (working c1) with
  | inl e => inl (e, c1)
  | inr (r, d) => inr (r, store d c1)
  end.

Definition commit (c : connection) : connection := Connection (working c) None.

Definition close (c : connection) : connection := Connection (disk c) None.

(** ** The sources of generated values *)

(** The value each library call returns, as a function of the number of
    draws made before it. *)
Record oracle := Oracle {
  random_random : nat -> Q;            (* random.random() *)
  randbelow : nat -> nat -> nat;       (* random._randbelow(n) *)
  faker_email : nat -> string;
  faker_name : nat -> string;
  faker_phone_number : nat -> string;
  faker_address : nat -> string;
  faker_date_this_decade : nat -> string
}.

(** What the libraries promise of these values: [random()] lies in [0, 1),
    [_randbelow(n)] below [n], and an e-mail address is not the empty
    string. *)
Record lib_contract (O : oracle) : Prop := {
  random_unit : forall i, (0 <= random_random O i)%Q /\ (random_random O i < 1)%Q;
  randbelow_lt : forall n i, (0 < n)%nat -> (randbelow O n i < n)%nat;
  email_nonempty : forall i, faker_email O i <> ""
}.

(** ** The state of a run and its monad *)

Record state := State {
  conn : connection;
  generated_emails : gset string;
  draws : nat;                          (* library draws made so far *)
  inserted : list (string * row);       (* history: table and row of every INSERT done *)
  stdout : list string
}.

Inductive result (A : Type) :=
  | Ok (a : A) (s : state)
  | Raise (e : exn) (s : state)        (* uncaught: the script stops here *)
  | Diverge.                            (* a loop ran out of fuel *)
Arguments Ok {A} a s.
Arguments Raise {A} e s.
Arguments Diverge {A}.

Definition M (A : Type) : Type := state -> result A.

Definition ret {A} (a : A) : M A := fun s => Ok a s.

Definition bind {A B} (m : M A) (k : A -> M B) : M B :=
  fun s => match m s with
           | Ok a s' => k a s'
           | Raise e s' => Raise e s'
           | Diverge => Diverge
           end.

Definition raise {A} (e : exn) : M A := fun s => Raise e s.

Declare Scope prog_scope.
Delimit Scope prog_scope with prog.
Notation "x <- m ;; k" := (bind m (fun x => k))
  (at level 100, m at next level, right associativity) : prog_scope.
Notation "m ;; k" := (bind m (fun _ => k))
  (at level 100, right associativity) : prog_scope.
Local Open Scope prog_scope.

(** for _ in range(n): body *)
Fixpoint for_range (n : nat) (body : M unit) : M unit :=
  match n with
  | O => ret tt
  | S n' => body ;; for_range n' body
  end.

(** for x in l: body x *)
Fixpoint for_each {A} (l : list A) (body : A -> M unit) : M unit :=
  match l with
  | [] => ret tt
  | x :: l' => body x ;; for_each l' body
  end.

Definition cursor_execute (st : stmt) : M unit :=
  fun s =>
    match execute st (conn s) with
    | inl (e, c) =>
        Raise e (State c (generated_emails s) (draws s) (inserted s) (stdout s))
    | inr (r, c) =>
        Ok tt (State c (generated_emails s) (draws s)
                 (match st, r with
                  | InsertInto t _ _, Some r => (inserted s ++ [(t, r)])%list
                  | _, _ => inserted s
                  end)
                 (stdout s))
    end.

Definition conn_commit : M unit :=
  fun s => Ok tt (State (commit (conn s)) (generated_emails s) (draws s)
                    (inserted s) (stdout s)).

Definition conn_close : M unit :=
  fun s => Ok tt (State (close (conn s)) (generated_emails s) (draws s)
                    (inserted s) (stdout s)).

Definition print (line : string) : M unit :=
  fun s => Ok tt (State (conn s) (generated_emails s) (draws s) (inserted s)
                    (stdout s ++ [line])%list).

Definition generated_emails_add (e : string) : M unit :=
  fun s => Ok tt (State (conn s) ({[e]} ∪ generated_emails s) (draws s)
                    (inserted s) (stdout s)).

(** One library call: its value at the current draw, and the count moves on. *)
Definition draw {A} (f : nat -> A) : M A :=
  fun s => Ok (f (draws s))
              (State (conn s) (generated_emails s) (S (draws s)) (inserted s)
                 (stdout s)).

(** round(x, n) on the rational [x]: to the nearest multiple of [10^-n],
    ties to the even one. *)
Definition round_half_even (x : Q) : Z :=
  let n := Qnum x in
  let d := Z.pos (Qden x) in
  let f := n / d in
  match (2 * (n mod d) ?= d) with
  | Lt => f
  | Gt => f + 1
  | Eq => if Z.even f then f else f + 1
  end.

Definition round (x : Q) (ndigits : nat) : Q :=
  Qmake (round_half_even (x * inject_Z (10 ^ Z.of_nat ndigits)))
        (Z.to_pos (10 ^ Z.of_nat ndigits)).

(** ", ".join(l) *)
Fixpoint join (sep : string) (l : list string) : string :=
  match l with
  | [] => ""
  | [x] => x
  | x :: l' => x ++ sep ++ join sep l'
  end.

(** d[k] on a dict kept in insertion order. *)
Fixpoint dict_get {V} (d : list (string * V)) (k : string) : option V :=
  match d with
  | [] => None
  | (k', v) :: d' => if String.eqb k' k then Some v else dict_get d' k
  end.

Definition keys {V} (d : list (string * V)) : list string := map fst d.

(** ** The schema (Step 2 of the script) *)

Definition Customers_schema : schema :=
  Schema (Some "customer_id")
    [ Col "name" TEXT [NotNull];
      Col "email" TEXT [Unique];
      Col "phone" TEXT [NotNull];
      Col "loyalty_tier" TEXT [Check (InList ["Bronze"; "Silver"; "Gold"]); NotNull];
      Col "address" TEXT [NotNull];
      Col "registered_date" DATE [NotNull] ]
    [] [].

Definition Menu_Items_schema : schema :=
  Schema (Some "item_id")
    [ Col "item_name" TEXT [NotNull];
      Col "category" TEXT
        [Check (InList ["Appetizer"; "Main Course"; "Dessert"; "Beverage"; "Breakfast"]);
         NotNull];
      Col "price" REAL [Check Gt0; NotNull];
      Col "ingredients" TEXT [NotNull];
      Col "calories" INTEGER [Check Ge0; NotNull];
      Col "availability" TEXT [Check (InList ["Available"; "Out of Stock"]); NotNull] ]
    [] [].

Definition Orders_schema : schema :=
  Schema (Some "order_id")
    [ Col "customer_id" INTEGER [NotNull];
      Col "order_date" DATE [NotNull];
      Col "table_no" INTEGER [NotNull];
      Col "total_amount" REAL [Check Gt0; NotNull];
      Col "payment_status" TEXT [Check (InList ["Paid"; "Pending"; "Failed"]); NotNull];
      Col "priority" TEXT
        [Check (InList ["Low"; "Medium"; "High"]); Default (VText "Medium")] ]
    []
    [ References "customer_id" "Customers" "customer_id" ].

Definition Order_Details_schema : schema :=
  Schema (Some "detail_id")
    [ Col "order_id" INTEGER [NotNull];
      Col "item_id" INTEGER [NotNull];
      Col "quantity" INTEGER [Check Gt0];
      Col "price_per_item" REAL [Check Gt0] ]
    []
    [ References "order_id" "Orders" "order_id";
      References "item_id" "Menu_Items" "item_id" ].

Definition Employees_schema : schema :=
  Schema (Some "employee_id")
    [ Col "name" TEXT [NotNull];
      Col "role" TEXT
        [Check (InList ["Manager"; "Chef"; "Waiter"; "Host"; "Team Member"; "Cleaner"]);
         NotNull];
      Col "salary" REAL [Check Gt0];
      Col "hire_date" DATE [NotNull];
      Col "phone" TEXT [NotNull];
      Col "email" TEXT [Unique; NotNull] ]
    [] [].

Definition Tables_schema : schema :=
  Schema (Some "table_no")
    [ Col "status" TEXT [Check (InList ["Available"; "Reserved"; "Occupied"])];
      Col "seating_capacity" INTEGER [Check Gt0];
      Col "location" TEXT [NotNull];
      Col "reservation_allowed" TEXT [Check (InList ["Yes"; "No"])];
      Col "waiter_assigned" INTEGER [NotNull] ]
    []
    [ References "waiter_assigned" "Employees" "employee_id" ].

Definition Suppliers_schema : schema :=
  Schema (Some "supplier_id")
    [ Col "name" TEXT [NotNull];
      Col "phone" TEXT [NotNull];
      Col "email" TEXT [Unique; NotNull];
      Col "address" TEXT [NotNull];
      Col "supply_category" TEXT [NotNull] ]
    [] [].

Definition Inventory_schema : schema :=
  Schema (Some "inventory_id")
    [ Col "item_name" TEXT [NotNull];
      Col "quantity" INTEGER [Check Ge0; NotNull];
      Col "supplier_id" INTEGER [NotNull];
      Col "restock_date" DATE [NotNull] ]
    []
    [ References "supplier_id" "Suppliers" "supplier_id" ].

Definition Feedback_schema : schema :=
  Schema (Some "feedback_id")
    [ Col "customer_id" INTEGER [NotNull];
      Col "order_id" INTEGER [NotNull];
      Col "rating" INTEGER [Check (Between 1 5)];
      Col "comments" TEXT [];
      Col "feedback_date" DATE [NotNull] ]
    []
    [ References "customer_id" "Customers" "customer_id";
      References "order_id" "Orders" "order_id" ].

Definition Menu_Supplier_schema : schema :=
  Schema None
    [ Col "menu_item_id" INTEGER [];
      Col "supplier_id" INTEGER [] ]
    [ "menu_item_id"; "supplier_id" ]
    [ References "menu_item_id" "Menu_Items" "item_id";
      References "supplier_id" "Suppliers" "supplier_id" ].

(** ** The script *)

Definition tables_to_drop : list string :=
  [ "Order_Details"; "Orders"; "Reservations"; "Menu_Items"; "Customers";
    "Employees"; "Suppliers"; "Inventory"; "Feedback"; "Tables"; "Menu_Supplier" ].

Definition menu_items : list string :=
  [ "Pizza"; "Burger"; "Pasta"; "Caesar Salad"; "Grilled Chicken"; "Cheesecake";
    "Latte"; "chef_specials"; "signature_dishes" ].

Definition ingredients_list : list string :=
  [ "tomatoes"; "cheese"; "lettuce"; "chicken"; "flour"; "sugar"; "milk";
    "olive oil"; "garlic" ].

Definition item_category_map : list (string * (string * list string)) :=
  [ ("Latte", ("Beverage", ["milk"; "coffee"; "sugar"]));
    ("Cheesecake", ("Dessert", ["cream cheese"; "sugar"; "eggs"]));
    ("Pizza", ("Main Course", ["tomato sauce"; "mozzarella"; "basil"]));
    ("Caesar Salad", ("Appetizer", ["romaine"; "croutons"; "parmesan"]));
    ("Grilled Chicken", ("Main Course", ["chicken breast"; "olive oil"; "garlic"]));
    ("Pasta", ("Main Course", ["penne"; "marinara"; "parmesan"]));
    ("Burger", ("Main Course", ["beef patty"; "lettuce"; "tomato"])) ].

Section Script.

Variable rnd : oracle.
(** How many rounds the while loop of one customer may take. *)
Variable fuel : nat.

(** random.choice(seq): seq[_randbelow(len(seq))] *)
Definition random_choice {A} (seq : list A) : M A :=
  i <- draw (randbelow rnd (length seq)) ;;
  match nth_error seq i with
  | Some x => ret x
  | None => raise IndexError
  end.

(** random.uniform(a, b): a + (b - a) * random() *)
Definition random_uniform (a b : Q) : M Q :=
  r <- draw (random_random rnd) ;;
  ret (a + (b - a) * r)%Q.

(** random.randint(a, b): a + _randbelow(b - a + 1) *)
Definition random_randint (a b : Z) : M Z :=
  k <- draw (randbelow rnd (Z.to_nat (b - a + 1))) ;;
  ret (a + Z.of_nat k).

(** Step 1: for table in tables_to_drop: DROP TABLE IF EXISTS *)
Definition drop_tables : M unit :=
  for_each tables_to_drop (fun t => cursor_execute (DropTableIfExists t)).

(** Step 2: the ten CREATE TABLE IF NOT EXISTS, in the script's order. *)
Definition create_tables : M unit :=
  cursor_execute (CreateTableIfNotExists "Customers" Customers_schema) ;;
  cursor_execute (CreateTableIfNotExists "Menu_Items" Menu_Items_schema) ;;
  cursor_execute (CreateTableIfNotExists "Orders" Orders_schema) ;;
  cursor_execute (CreateTableIfNotExists "Order_Details" Order_Details_schema) ;;
  cursor_execute (CreateTableIfNotExists "Employees" Employees_schema) ;;
  cursor_execute (CreateTableIfNotExists "Tables" Tables_schema) ;;
  cursor_execute (CreateTableIfNotExists "Suppliers" Suppliers_schema) ;;
  cursor_execute (CreateTableIfNotExists "Inventory" Inventory_schema) ;;
  cursor_execute (CreateTableIfNotExists "Feedback" Feedback_schema) ;;
  cursor_execute (CreateTableIfNotExists "Menu_Supplier" Menu_Supplier_schema).

(** while email in generated_emails: email = faker.email() *)
Fixpoint regenerate (n : nat) (email : string) : M string :=
  fun s =>
    if decide (email ∈ generated_emails s) then
      match n with
      | O => Diverge
      | S n' => (e <- draw (faker_email rnd) ;; regenerate n' e) s
      end
    else Ok email s.

Definition truthy (email : option string) : bool :=
  match email with
  | None | Some "" => false
  | Some _ => true
  end.

Definition sql_of_option (email : option string) : value :=
  match email with None => VNull | Some e => VText e end.

(** The body of the customers loop. *)
Definition customer : M unit :=
  r <- draw (random_random rnd) ;;
  email <- (if Qltb r (1 # 10) then ret None
            else e <- draw (faker_email rnd) ;; ret (Some e)) ;;
  email <- (match email with
            | Some e =>
                if truthy email then
                  e' <- regenerate fuel e ;;
                  generated_emails_add e' ;;
                  ret (Some e')
                else ret email
            | None => ret email
            end) ;;
  name <- draw (faker_name rnd) ;;
  phone <- draw (faker_phone_number rnd) ;;
  tier <- random_choice ["Bronze"; "Silver"; "Gold"] ;;
  address <- draw (faker_address rnd) ;;
  date <- draw (faker_date_this_decade rnd) ;;
  cursor_execute
    (InsertInto "Customers"
       ["name"; "email"; "phone"; "loyalty_tier"; "address"; "registered_date"]
       [VText name; sql_of_option email; VText phone; VText tier;
        VText address; VText date]).

Definition populate_customers : M unit := for_range 1500 customer.

(** The body of the menu-items loop. *)
Definition menu_item : M unit :=
  item_name <- random_choice (keys item_category_map) ;;
  entry <- (match dict_get item_category_map item_name with
            | Some e => ret e
            | None => raise KeyError
            end) ;;
  let category := fst entry in
  let ingredients := snd entry in
  u <- random_uniform 5 50 ;;
  let price := round u 2 in
  calories <- random_randint 100 1000 ;;
  availability <- random_choice ["Available"; "Out of Stock"] ;;
  cursor_execute
    (InsertInto "Menu_Items"
       ["item_name"; "category"; "price"; "ingredients"; "calories"; "availability"]
       [VText item_name; VText category; VReal price;
        VText (join ", " ingredients); VInt calories; VText availability]).

Definition populate_menu_items : M unit := for_range 100 menu_item.

(** Step 4: the five CREATE INDEX IF NOT EXISTS. *)
Definition create_indexes : M unit :=
  cursor_execute (CreateIndexIfNotExists "idx_orders_customer_id" "Orders" "customer_id") ;;
  cursor_execute (CreateIndexIfNotExists "idx_order_date" "Orders" "order_date") ;;
  cursor_execute (CreateIndexIfNotExists "idx_feedback_customer_id" "Feedback" "customer_id") ;;
  cursor_execute (CreateIndexIfNotExists "idx_inventory_supplier_id" "Inventory" "supplier_id") ;;
  cursor_execute (CreateIndexIfNotExists "idx_order_details_order_id" "Order_Details" "order_id").

Definition main : M unit :=
  drop_tables ;;
  create_tables ;;
  populate_customers ;;
  populate_menu_items ;;
  (* Similar population logic continues for other tables... *)
  create_indexes ;;
  conn_commit ;;
  conn_close ;;
  print "Database with 10 tables and realistic data created successfully!".

(** The script run on a database file. *)
Definition run (file : database) : result unit :=
  main (State (connect file) ∅ 0 [] []).

End Script.


(** * Specification *)

(** ** Reading a run, its tables and its history *)

(** The run ended in state [s]: the script finished, or stopped on an
    uncaught exception. *)
Definition ended (r : result unit) (s : state) : Prop :=
  r = Ok tt s \/ exists e, r = Raise e s.

(** The rows of table [t], none when the table is not there. *)
Definition table_rows (d : database) (t : string) : list row :=
  match tables d !! t with Some tb => t_rows tb | None => [] end.

(** The rows the history records for table [t], oldest first. *)
Definition rows_in (t : string) (log : list (string * row)) : list row :=
  map snd (List.filter (fun e => String.eqb (fst e) t) log).

(** The e-mail addresses of the rows that have one. *)
Definition emails_of (rows : list row) : list string :=
  omap (fun r => match cell "email" r with VText e => Some e | _ => None end) rows.

(** The CREATE TABLE statements of the script, by table. *)
Definition created_tables : list (string * schema) :=
  [ ("Customers", Customers_schema); ("Menu_Items", Menu_Items_schema);
    ("Orders", Orders_schema); ("Order_Details", Order_Details_schema);
    ("Employees", Employees_schema); ("Tables", Tables_schema);
    ("Suppliers", Suppliers_schema); ("Inventory", Inventory_schema);
    ("Feedback", Feedback_schema); ("Menu_Supplier", Menu_Supplier_schema) ].

(** The tables that hold a foreign key. *)
Definition child_tables : list string :=
  [ "Orders"; "Order_Details"; "Feedback"; "Inventory"; "Tables"; "Menu_Supplier" ].

(** ** A program logic for the monad *)

(** From a state in [P], the program ends in [Q] when it returns and in [E]
    when it raises. *)
Definition hoare {A} (P : state -> Prop) (m : M A)
  (Q : A -> state -> Prop) (E : exn -> state -> Prop) : Prop :=
  forall s, P s ->
    match m s with
    | Ok a s' => Q a s'
    | Raise e s' => E e s'
    | Diverge => True
    end.

(** ** The invariant of a run *)

(** A table of the working database agrees with the history: it has the
    schema the script creates it with, its rows are the rows inserted in
    this run, and its sequence counts them; a table not there has had no
    row inserted. *)
Definition table_ok (log : list (string * row)) (t : string) (o : option table) : Prop :=
  match o with
  | None => rows_in t log = []
  | Some tb =>
      dict_get created_tables t = Some (t_schema tb) /\
      t_rows tb = rows_in t log /\
      t_seq tb = Z.of_nat (length (t_rows tb))
  end.

(** The eleven tables of [tables_to_drop] agree with the history [log]; every
    other table is as in the initial file. *)
Definition db_ok (file : database) (log : list (string * row)) (d : database) : Prop :=
  (forall t, In t tables_to_drop -> table_ok log t (tables d !! t)) /\
  (forall t, ~ In t tables_to_drop -> tables d !! t = tables file !! t).

(** The two INSERT statements and the rows they store. *)
Definition customer_insert (name : string) (email : option string)
  (phone tier address date : string) : stmt :=
  InsertInto "Customers"
    ["name"; "email"; "phone"; "loyalty_tier"; "address"; "registered_date"]
    [VText name; sql_of_option email; VText phone; VText tier;
     VText address; VText date].

(** The state [n] draws later. *)
Definition later (n : nat) (s : state) : state :=
  State (conn s) (generated_emails s) (n + draws s) (inserted s) (stdout s).

Definition menu_insert (item_name category : string) (price : Q)
  (ingredients : list string) (calories : Z) (availability : string) : stmt :=
  InsertInto "Menu_Items"
    ["item_name"; "category"; "price"; "ingredients"; "calories"; "availability"]
    [VText item_name; VText category; VReal price;
     VText (join ", " ingredients); VInt calories; VText availability].

Definition customer_row (id : Z) (name : string) (email : option string)
  (phone tier address date : string) : row :=
  [ ("customer_id", VInt id); ("name", VText name); ("email", sql_of_option email);
    ("phone", VText phone); ("loyalty_tier", VText tier);
    ("address", VText address); ("registered_date", VText date) ].

Definition menu_row (id : Z) (item_name category : string) (price : Q)
  (ingredients : list string) (calories : Z) (availability : string) : row :=
  [ ("item_id", VInt id); ("item_name", VText item_name);
    ("category", VText category); ("price", VReal price);
    ("ingredients", VText (join ", " ingredients)); ("calories", VInt calories);
    ("availability", VText availability) ].

(** A stored menu item: an entry of [item_category_map], a positive price
    and calories that are not negative. *)
Definition menu_row_ok (r : row) : Prop :=
  exists id name cat ingr price cal avail,
    r = menu_row id name cat price ingr cal avail /\
    In (name, (cat, ingr)) item_category_map /\
    (0 < price)%Q /\ 0 <= cal.

(** The customers stored so far: the e-mail addresses are pairwise distinct,
    all but the empty one are in [generated_emails], and the identities are
    1, 2, ... in order. *)
Definition customers_ok (rows : list row) (gen : gset string) : Prop :=
  NoDup (emails_of rows) /\
  (forall e, In e (emails_of rows) -> e <> "" -> e ∈ gen) /\
  map (cell "customer_id") rows =
  map (fun i => VInt (Z.of_nat i)) (seq 1 (length rows)).

(** The ten tables of the script are there. *)
Definition created_in (d : database) : Prop :=
  forall t sch, In (t, sch) created_tables -> is_Some (tables d !! t).

(** What holds of a state from the end of Step 1 to the commit: the working
    database and the file agree with the history (the file, with none of
    it), nothing was printed, the history holds customers and well-formed
    menu items only, and the customers are as [customers_ok] says. *)
Record inv (file : database) (s : state) : Prop := {
  inv_working : db_ok file (inserted s) (working (conn s));
  inv_disk : db_ok file [] (disk (conn s));
  inv_stdout : stdout s = [];
  inv_log : forall t r, In (t, r) (inserted s) ->
              t = "Customers" \/ (t = "Menu_Items" /\ menu_row_ok r);
  inv_customers :
    customers_ok (rows_in "Customers" (inserted s)) (generated_emails s)
}.

(** The invariant between the CREATE TABLEs and the commit. *)
Definition populating (file : database) (s : state) : Prop :=
  inv file s /\ created_in (working (conn s)) /\ created_in (disk (conn s)).

(** How many rows the run has inserted into [t]. *)
Definition count (t : string) (s : state) : nat :=
  length (rows_in t (inserted s)).

(** The file after Step 1. *)
Definition dropped (file : database) : database :=
  fold_left (fun d t => drop_table_if_exists t d) tables_to_drop file.

(** Membership in a list given in full. *)
Ltac in_list := solve [simpl; repeat first [left; reflexivity | right]].

(** During Step 2: no transaction is open, nothing was inserted, and the
    tables of [names] are there. *)
Definition creating (file : database) (names : list string) (s : state) : Prop :=
  inv file s /\ txn (conn s) = None /\ inserted s = [] /\
  generated_emails s = ∅ /\
  forall t, In t names -> is_Some (tables (disk (conn s)) !! t).

(** What a finished run leaves: the file holds what the run inserted, in the
    ten tables of the script; no transaction is open; and the counts are
    those of the two loops. *)
Definition completed (file : database) (s : state) : Prop :=
  db_ok file (inserted s) (disk (conn s)) /\
  created_in (disk (conn s)) /\
  txn (conn s) = None /\
  (forall t r, In (t, r) (inserted s) ->
     t = "Customers" \/ (t = "Menu_Items" /\ menu_row_ok r)) /\
  customers_ok (rows_in "Customers" (inserted s)) (generated_emails s) /\
  count "Customers" s = 1500%nat /\ count "Menu_Items" s = 100%nat /\
  stdout s = ["Database with 10 tables and realistic data created successfully!"].

(** ** Termination *)

(** From every point on, the e-mail generator yields a string outside any
    given finite set. *)
Definition eventually_fresh (rnd : oracle) : Prop :=
  forall (used : gset string) (i : nat), exists k, faker_email rnd (i + k) ∉ used.

(** A program that takes fuel and, once it has enough to end, ends the same
    way with more. *)
Definition mono {A} (m : nat -> M A) : Prop :=
  forall n n' s, (n <= n')%nat -> m n s <> Diverge -> m n' s = m n s.

(** A program that always ends. *)
Definition total {A} (m : M A) : Prop := forall s, m s <> Diverge.

(** ** Referential integrity *)




(** ** Sample inputs *)

(** An oracle that breaks the promise of the e-mail generator: every address
    is the empty string, which the script does not track. *)
Definition empty_mail_oracle : oracle :=
  Oracle (fun _ => 1 # 2) (fun _ _ => 0%nat) (fun _ => "")
         (fun _ => "Ann Lee") (fun _ => "555-0100") (fun _ => "1 Main Street")
         (fun _ => "2024-01-01").

(** A file with one customer from earlier. *)
Definition earlier_file : database :=
  Database
    {[ "Customers" :=
         Table Customers_schema 1
           [customer_row 1 "Bo Reed" None "555-0199" "Gold" "9 Elm Road" "2023-05-05"] ]}
    ∅.


(** An oracle that keeps the promises of the libraries: [random()] is 0.05
    at every fourth draw and 0.5 otherwise, [_randbelow(n)] is the draw
    count modulo [n], and the e-mail generator repeats each address sixteen
    draws long, so that the while loop has collisions to resolve. *)
Definition sample_oracle : oracle :=
  Oracle (fun i => if (i mod 4 =? 3)%nat then 1 # 20 else 1 # 2)
         (fun n i => (i mod n)%nat)
         (fun i => "mail@" ++ pretty (i / 16)%nat)
         (fun _ => "Ann Lee") (fun _ => "555-0100") (fun _ => "1 Main Street")
         (fun _ => "2024-01-01").

(** The rows of table [t] in the working database a program ends with. *)
Definition rows_after (t : string) (r : result unit) : list row :=
  match r with
  | Ok _ s | Raise _ s => table_rows (working (conn s)) t
  | Diverge => []
  end.

(** ** More sample inputs *)

(** An oracle whose e-mail generator is stuck on one address. *)
Definition stuck_oracle : oracle :=
  Oracle (fun _ => 1 # 2) (fun n i => (i mod n)%nat) (fun _ => "one@example.org")
         (fun _ => "Ann Lee") (fun _ => "555-0100") (fun _ => "1 Main Street")
         (fun _ => "2024-01-01").

(** A state of the script after [n] draws, on a file with the Customers and
    Menu_Items tables new, with the addresses of [used] in
    [generated_emails]. *)
Definition at_draw (n : nat) (used : list string) : state :=
  State (connect (Database {[ "Customers" := Table Customers_schema 0 [];
                              "Menu_Items" := Table Menu_Items_schema 0 [] ]} ∅))
        (list_to_set used) n [] [].

(** ** One round of each loop *)

(** A round of the customers loop from the draw of the name on, the e-mail
    address settled. *)
Definition customer_rest (rnd : oracle) (email : option string) : M unit :=
  name <- draw (faker_name rnd) ;;
  phone <- draw (faker_phone_number rnd) ;;
  tier <- random_choice rnd ["Bronze"; "Silver"; "Gold"] ;;
  address <- draw (faker_address rnd) ;;
  date <- draw (faker_date_this_decade rnd) ;;
  cursor_execute
    (InsertInto "Customers"
       ["name"; "email"; "phone"; "loyalty_tier"; "address"; "registered_date"]
       [VText name; sql_of_option email; VText phone; VText tier;
        VText address; VText date]).

(** How [generated_emails] moves in a round that settles on [email]: not at
    all for no address and for the empty one taken as it came, and by the
    address, which was not in it, otherwise. *)
Definition tracks (email : option string) (before after : gset string) : Prop :=
  match email with
  | None => after = before
  | Some e =>
      (e = "" /\ after = before) \/
      ((e ∉ before) /\ after = {[e]} ∪ before)
  end.

(** ** What the loops store *)

(** A customer as a round of the loop builds it: a tier of the three, and
    an e-mail address that is a value of the generator when there is one. *)
Definition customer_drawn (rnd : oracle) (r : row) : Prop :=
  exists id name email phone tier address date,
    r = customer_row id name email phone tier address date /\
    In tier ["Bronze"; "Silver"; "Gold"] /\
    forall e, email = Some e -> exists i, e = faker_email rnd i.

(** A menu item as a round of the loop builds it: an entry of
    [item_category_map], the price [round(5 + 45 * random(), 2)], the
    calories [100 + _randbelow(901)] and one of the two availabilities. *)
Definition menu_item_drawn (rnd : oracle) (r : row) : Prop :=
  exists id name cat ingr avail i j,
    r = menu_row id name cat (round (5 + (50 - 5) * random_random rnd i) 2) ingr
          (100 + Z.of_nat (randbelow rnd 901 j)) avail /\
    In (name, (cat, ingr)) item_category_map /\
    In avail ["Available"; "Out of Stock"].

(** The history of a run: customers and menu items as the loops build them,
    every customer before every menu item, and the menu items numbered
    1, 2, ... in order. *)
Record drawn (rnd : oracle) (log : list (string * row)) : Prop := {
  dr_customers : forall r, In r (rows_in "Customers" log) -> customer_drawn rnd r;
  dr_menu : forall r, In r (rows_in "Menu_Items" log) -> menu_item_drawn rnd r;
  dr_order :
    log = (map (pair "Customers") (rows_in "Customers" log) ++
           map (pair "Menu_Items") (rows_in "Menu_Items" log))%list;
  dr_item_ids :
    map (cell "item_id") (rows_in "Menu_Items" log) =
    map (fun i => VInt (Z.of_nat i)) (seq 1 (length (rows_in "Menu_Items" log)))
}.

(** Every address in [generated_emails] is the address of a stored
    customer. *)
Definition tracked (s : state) : Prop :=
  forall e, e ∈ generated_emails s ->
    In e (emails_of (rows_in "Customers" (inserted s))).

(** ** Indexes *)

(** The CREATE INDEX statements of the script: name, table and column. *)
Definition script_indexes : list (string * (string * string)) :=
  [ ("idx_orders_customer_id", ("Orders", "customer_id"));
    ("idx_order_date", ("Orders", "order_date"));
    ("idx_feedback_customer_id", ("Feedback", "customer_id"));
    ("idx_inventory_supplier_id", ("Inventory", "supplier_id"));
    ("idx_order_details_order_id", ("Order_Details", "order_id")) ].

(** IF NOT EXISTS on the indexes of a database: a name that is taken keeps
    its index. *)
Definition add_index (i : string) (on : string * string)
  (ix : gmap string (string * string)) : gmap string (string * string) :=
  match ix !! i with
  | Some _ => ix
  | None => <[i := on]> ix
  end.

Definition with_indexes (ix : gmap string (string * string))
  : gmap string (string * string) :=
  fold_left (fun ix e => add_index (fst e) (snd e) ix) script_indexes ix.


(** A file from earlier: a customer, a table of another application with an
    index under a name the script uses, and an index on a table the script
    drops. *)
Definition busy_file : database :=
  Database
    {[ "Customers" :=
         Table Customers_schema 1
           [customer_row 1 "Bo Reed" None "555-0199" "Gold" "9 Elm Road" "2023-05-05"];
       "Notes" := Table (Schema None [Col "body" TEXT []] [] []) 0 [] ]}
    {[ "idx_order_date" := ("Notes", "body");
       "idx_customers_name" := ("Customers", "name") ]}.

(** The program returned. *)
Definition returned (r : result unit) : bool :=
  match r with
  | Ok _ _ => true
  | _ => false
  end.

(** ** Why a run stops *)

(** The promise of the libraries that the oracle has broken when the script
    stops on the exception [e]: for an IndexError a [_randbelow(n)] out of
    range, for an IntegrityError an empty e-mail address or a price that is
    not positive.  Nothing makes the script stop on another exception. *)
Definition broken_promise (rnd : oracle) (e : exn) : Prop :=
  match e with
  | IndexError => exists n i, (0 < n)%nat /\ ~ (randbelow rnd n i < n)%nat
  | IntegrityError =>
      (exists i, faker_email rnd i = "") \/
      (exists i, ~ (0 < round (5 + (50 - 5) * random_random rnd i) 2)%Q)
  | _ => False
  end.

(** * Proofs *)

(** ** A program logic for the monad *)

Lemma hoare_ret {A} (a : A) (P : state -> Prop) Q E :
  (forall s, P s -> Q a s) -> hoare P (ret a) Q E.
Proof. intros H s Hs. simpl. auto. Qed.

Lemma hoare_bind {A B} (m : M A) (k : A -> M B) P R Q E :
  hoare P m R E -> (forall a, hoare (R a) (k a) Q E) -> hoare P (bind m k) Q E.
Proof.
  intros Hm Hk s Hs. unfold bind. specialize (Hm s Hs).
  destruct (m s) as [a s'| |]; auto. apply (Hk a s' Hm).
Qed.

Lemma hoare_conseq {A} (m : M A) (P P' : state -> Prop) (Q Q' : A -> state -> Prop)
  (E E' : exn -> state -> Prop) :
  hoare P' m Q' E' ->
  (forall s, P s -> P' s) -> (forall a s, Q' a s -> Q a s) ->
  (forall e s, E' e s -> E e s) ->
  hoare P m Q E.
Proof.
  intros H HP HQ HE s Hs. specialize (H s (HP s Hs)).
  destruct (m s); auto.
Qed.

Lemma hoare_for_range (I : nat -> state -> Prop) E body n k :
  (forall i, hoare (I i) body (fun _ => I (S i)) E) ->
  hoare (I k) (for_range n body) (fun _ => I (n + k)%nat) E.
Proof.
  intros Hb. revert k. induction n as [|n IH]; intros k; simpl.
  - apply hoare_ret. auto.
  - eapply hoare_bind; [apply Hb|]. intros [].
    eapply hoare_conseq; [apply (IH (S k))| | |]; auto.
    intros [] s. replace (n + S k)%nat with (S n + k)%nat by lia. auto.
Qed.

(** ** Facts about the engine and the connection *)

Lemma rows_in_app t log1 log2 :
  rows_in t (log1 ++ log2) = (rows_in t log1 ++ rows_in t log2)%list.
Proof. unfold rows_in. rewrite List.filter_app, map_app. reflexivity. Qed.

Lemma rows_in_snoc_eq t log r :
  rows_in t (log ++ [(t, r)]) = (rows_in t log ++ [r])%list.
Proof.
  rewrite rows_in_app. unfold rows_in at 2. simpl.
  rewrite String.eqb_refl. reflexivity.
Qed.

Lemma rows_in_snoc_ne t t' log r :
  t' <> t -> rows_in t (log ++ [(t', r)]) = rows_in t log.
Proof.
  intros Hne. rewrite rows_in_app. unfold rows_in at 2. simpl.
  destruct (String.eqb_spec t' t) as [->|_]; [congruence|].
  simpl. apply app_nil_r.
Qed.

Lemma working_begin st c : working (begin_if_dml st c) = working c.
Proof. unfold begin_if_dml. destruct (is_dml st); reflexivity. Qed.

Lemma disk_begin st c : disk (begin_if_dml st c) = disk c.
Proof. unfold begin_if_dml. destruct (is_dml st); reflexivity. Qed.

Lemma working_store d c : working (store d c) = d.
Proof. unfold store, working. destruct (txn c); reflexivity. Qed.

(** A statement that went through: the working database is the engine's
    result; an INSERT, or any statement inside a transaction, leaves the
    file as it was and a transaction open; another statement outside a
    transaction is in the file at once; and the history grew by the row of
    an INSERT. *)
Lemma cursor_execute_ok st s u s' :
  cursor_execute st s = Ok u s' ->
  exists r,
    run_stmt st (working (conn s)) = inr (r, working (conn s')) /\
    ((is_dml st = true \/ txn (conn s) <> None ->
      disk (conn s') = disk (conn s) /\ txn (conn s') <> None) /\
     (is_dml st = false -> txn (conn s) = None ->
      txn (conn s') = None /\ disk (conn s') = working (conn s'))) /\
    inserted s' = match st, r with
                  | InsertInto t _ _, Some r => (inserted s ++ [(t, r)])%list
                  | _, _ => inserted s
                  end /\
    generated_emails s' = generated_emails s /\ draws s' = draws s /\
    stdout s' = stdout s.
Proof.
  unfold cursor_execute, execute. rewrite working_begin.
  destruct (run_stmt st (working (conn s))) as [e|[r d]] eqn:Hrun; [discriminate|].
  intros H. inversion H; subst; clear H. simpl. exists r. rewrite working_store.
  split; [reflexivity|]. split; [|auto]. unfold store, begin_if_dml. split.
  - intros Hor. destruct (is_dml st) eqn:Hd; simpl; [split; [reflexivity|discriminate]|].
    destruct (txn (conn s)) eqn:Ht; simpl; [split; [reflexivity|discriminate]|].
    destruct Hor as [Hor|Hor]; [discriminate|contradiction].
  - intros Hd Ht. rewrite Hd, Ht. simpl. auto.
Qed.

(** A statement that raised: nothing moved but, possibly, a transaction
    was opened. *)
Lemma cursor_execute_raise st s e s' :
  cursor_execute st s = Raise e s' ->
  run_stmt st (working (conn s)) = inl e /\
  working (conn s') = working (conn s) /\ disk (conn s') = disk (conn s) /\
  inserted s' = inserted s /\ generated_emails s' = generated_emails s /\
  draws s' = draws s /\ stdout s' = stdout s.
Proof.
  unfold cursor_execute, execute. rewrite working_begin.
  destruct (run_stmt st (working (conn s))) as [e0|[r d]] eqn:Hrun; [|discriminate].
  intros H. inversion H; subst; clear H. simpl.
  rewrite working_begin, disk_begin. auto 10.
Qed.

Lemma cursor_execute_converges st s : cursor_execute st s <> Diverge.
Proof.
  unfold cursor_execute. destruct (execute st (conn s)) as [[e c]|[r c]]; discriminate.
Qed.

Lemma insert_into_inr t cols vals d r d' :
  insert_into t cols vals d = inr (r, d') ->
  exists tb,
    tables d !! t = Some tb /\
    r = build_row (t_schema tb) (t_seq tb + 1) cols vals /\
    forallb (column_ok (t_rows tb) r) (s_cols (t_schema tb)) = true /\
    d' = Database (<[t := Table (t_schema tb) (t_seq tb + 1) (t_rows tb ++ [r])]> (tables d))
                  (indexes d).
Proof.
  unfold insert_into. destruct (tables d !! t) as [tb|]; [|discriminate].
  destruct (_ || _); [discriminate|].
  destruct (forallb _ _ && _) eqn:Hck; [|discriminate].
  intros H. injection H as <- <-. exists tb.
  apply andb_true_iff in Hck as [Hc _]. auto.
Qed.

(** ** The invariant of a run *)

Lemma db_ok_create file log t sch d :
  dict_get created_tables t = Some sch -> In t tables_to_drop ->
  db_ok file log d -> db_ok file log (create_table_if_not_exists t sch d).
Proof.
  intros Hsch Hin [Hok Hfr]. unfold create_table_if_not_exists.
  destruct (tables d !! t) as [tb|] eqn:Ht; [split; auto|].
  split; simpl; intros t' Ht'.
  - destruct (decide (t = t')) as [<-|Hne].
    + rewrite lookup_insert_eq. simpl. specialize (Hok t Hin). rewrite Ht in Hok.
      simpl in Hok. rewrite Hok. auto.
    + rewrite lookup_insert_ne by exact Hne. auto.
  - rewrite lookup_insert_ne by (intros ->; contradiction). auto.
Qed.

Lemma db_ok_insert file log t cols vals d r d' :
  In t tables_to_drop -> db_ok file log d ->
  insert_into t cols vals d = inr (r, d') ->
  db_ok file (log ++ [(t, r)]) d'.
Proof.
  intros Hin [Hok Hfr] Hins.
  apply insert_into_inr in Hins as (tb & Ht & _ & _ & ->).
  split; simpl; intros t' Ht'.
  - destruct (decide (t = t')) as [<-|Hne].
    + rewrite lookup_insert_eq. simpl. specialize (Hok t Hin). rewrite Ht in Hok.
      destruct Hok as (Hs & Hr & Hq). rewrite rows_in_snoc_eq, <- Hr.
      repeat split; auto. rewrite length_app, Hq. simpl. lia.
    + rewrite lookup_insert_ne by exact Hne. specialize (Hok t' Ht').
      unfold table_ok in *. rewrite rows_in_snoc_ne by exact Hne. exact Hok.
  - rewrite lookup_insert_ne by (intros ->; contradiction). auto.
Qed.

(** ** Equations of the monad *)

Lemma bind_ret {A B} (a : A) (k : A -> M B) s : bind (ret a) k s = k a s.
Proof. reflexivity. Qed.

Lemma bind_draw {A B} (f : nat -> A) (k : A -> M B) s :
  bind (draw f) k s =
  k (f (draws s))
    (State (conn s) (generated_emails s) (S (draws s)) (inserted s) (stdout s)).
Proof. reflexivity. Qed.

Lemma bind_bind {A B C} (m : M A) (k : A -> M B) (h : B -> M C) s :
  bind (bind m k) h s = bind m (fun a => bind (k a) h) s.
Proof. unfold bind. destruct (m s); reflexivity. Qed.

Lemma bind_diverge {A B} (m : M A) (k : A -> M B) s :
  m s = Diverge -> bind m k s = Diverge.
Proof. unfold bind. intros ->. reflexivity. Qed.

Lemma bind_raised {A B} (m : M A) (k : A -> M B) s e s' :
  m s = Raise e s' -> bind m k s = Raise e s'.
Proof. unfold bind. intros ->. reflexivity. Qed.

Lemma bind_returned {A B} (m : M A) (k : A -> M B) s a s' :
  m s = Ok a s' -> bind m k s = k a s'.
Proof. unfold bind. intros ->. reflexivity. Qed.

(** ** The customers loop, one round at a time *)

Section Rounds.

Variable rnd : oracle.

(** The while loop leaves the connection, the history and the set alone,
    and what it returns is not in the set. *)
Lemma regenerate_cases n e s :
  regenerate rnd n e s = Diverge \/
  exists e' s',
    regenerate rnd n e s = Ok e' s' /\
    (e' ∉ generated_emails s) /\
    (e' = e \/ exists i, e' = faker_email rnd i) /\
    conn s' = conn s /\ inserted s' = inserted s /\ stdout s' = stdout s /\
    generated_emails s' = generated_emails s.
Proof.
  revert e s. induction n as [|n IH]; intros e s; simpl.
  - destruct (decide (e ∈ generated_emails s)); [left; reflexivity|].
    right. exists e, s. auto 10.
  - destruct (decide (e ∈ generated_emails s)).
    + unfold bind, draw.
      set (s1 := State _ _ _ _ _).
      destruct (IH (faker_email rnd (draws s)) s1)
        as [->|(e' & s' & -> & Hf & He & Hc & Hi & Ho & Hg)]; [left; reflexivity|].
      right. exists e', s'. split; [reflexivity|].
      repeat split; auto. right. destruct He as [->|He]; eauto.
    + right. exists e, s. auto 10.
Qed.

Variable fuel : nat.

(** The round from the draw of the name on: it stops on a list index out
    of range (the oracle broke the promise of [_randbelow]) or comes to
    its INSERT. *)
Lemma customer_tail s0 email :
  let rest :=
    (name <- draw (faker_name rnd) ;;
     phone <- draw (faker_phone_number rnd) ;;
     tier <- random_choice rnd ["Bronze"; "Silver"; "Gold"] ;;
     address <- draw (faker_address rnd) ;;
     date <- draw (faker_date_this_decade rnd) ;;
     cursor_execute
       (InsertInto "Customers"
          ["name"; "email"; "phone"; "loyalty_tier"; "address"; "registered_date"]
          [VText name; sql_of_option email; VText phone; VText tier;
           VText address; VText date])) s0 in
  (rest = Raise IndexError (later 3 s0) /\
   exists i, ~ (randbelow rnd 3 i < 3)%nat) \/
  exists name phone tier address date,
    In tier ["Bronze"; "Silver"; "Gold"] /\
    rest = cursor_execute
             (customer_insert name email phone tier address date) (later 5 s0).
Proof.
  unfold bind, draw, random_choice, bind, draw, ret, raise.
  cbn [conn generated_emails draws inserted stdout].
  destruct (nth_error _ _) as [tier|] eqn:Hn.
  - right. do 5 eexists. split; [eapply nth_error_In; exact Hn|]. reflexivity.
  - left. split; [reflexivity|]. exists (S (S (draws s0))). intros Hlt.
    apply nth_error_None in Hn. simpl in Hn. lia.
Qed.

(** One round of the customers loop, short of divergence: the e-mail
    address is none, or the empty string and untracked, or a string that
    was not in the set and now is; then the round goes on as in
    [customer_tail]. *)
Lemma customer_cases s :
  customer rnd fuel s = Diverge \/
  exists s1 email,
    conn s1 = conn s /\ inserted s1 = inserted s /\ stdout s1 = stdout s /\
    match email with
    | None => generated_emails s1 = generated_emails s
    | Some e =>
        (exists i, e = faker_email rnd i) /\
        ((e = "" /\ generated_emails s1 = generated_emails s) \/
         ((e ∉ generated_emails s) /\
          generated_emails s1 = {[e]} ∪ generated_emails s))
    end /\
    ((customer rnd fuel s = Raise IndexError s1 /\
      exists i, ~ (randbelow rnd 3 i < 3)%nat) \/
     exists name phone tier address date,
       In tier ["Bronze"; "Silver"; "Gold"] /\
       customer rnd fuel s =
         cursor_execute (customer_insert name email phone tier address date) s1).
Proof.
  unfold customer. rewrite bind_draw.
  set (s0 := State _ _ _ _ _).
  destruct (Qltb (random_random rnd (draws s)) (1 # 10)).
  - rewrite bind_ret, bind_ret.
    right. destruct (customer_tail s0 None) as [[-> Hb]|(n & p & t & a & d & Ht & ->)].
    + exists (later 3 s0), None. auto 10.
    + exists (later 5 s0), None. repeat split; auto; right; eauto 10.
  - rewrite bind_bind, bind_draw, bind_ret.
    set (s0' := State _ _ _ _ _).
    set (e := faker_email rnd (draws s0)).
    destruct (truthy (Some e)) eqn:Htr.
    + rewrite bind_bind.
      destruct (regenerate_cases fuel e s0')
        as [Hd|(e' & s' & Hr & Hf & He & Hc & Hi & Ho & Hg)].
      { left. apply bind_diverge. exact Hd. }
      rewrite (bind_returned _ _ _ _ _ Hr).
      rewrite bind_bind.
      change (bind (generated_emails_add e') ?k s') with
        (k tt (State (conn s') ({[e']} ∪ generated_emails s') (draws s')
                 (inserted s') (stdout s'))).
      cbv beta. rewrite bind_ret.
      set (s2 := State _ _ _ _ _).
      assert (Hmail : exists i, e' = faker_email rnd i).
      { destruct He as [->|He]; [eexists; reflexivity|exact He]. }
      assert (Hgen : generated_emails s2 = {[e']} ∪ generated_emails s).
      { simpl. rewrite Hg. reflexivity. }
      right.
      destruct (customer_tail s2 (Some e')) as [[-> Hb]|(n & p & t & a & d & Ht & ->)].
      * exists (later 3 s2), (Some e'). repeat split; auto.
      * exists (later 5 s2), (Some e'). repeat split; auto; right; eauto 10.
    + rewrite bind_ret.
      assert (He : e = "").
      { simpl in Htr. destruct e; [reflexivity|discriminate]. }
      right.
      destruct (customer_tail s0' (Some e)) as [[-> Hb]|(n & p & t & a & d & Ht & ->)].
      * exists (later 3 s0'), (Some e). repeat split; auto.
        eexists; reflexivity.
      * exists (later 5 s0'), (Some e). repeat split; auto;
          [eexists; reflexivity | right; eauto 10].
Qed.

Lemma dict_get_keys {V} (d : list (string * V)) k :
  In k (keys d) -> exists v, dict_get d k = Some v /\ In (k, v) d.
Proof.
  induction d as [|[k' v'] d IH]; simpl; [tauto|].
  intros Hin. destruct (String.eqb_spec k' k) as [->|Hne].
  - exists v'. auto.
  - destruct Hin as [Heq|Hin]; [contradiction|].
    destruct (IH Hin) as (v & Hv & Hi). eauto.
Qed.

(** One round of the menu-items loop: it stops on a list index out of
    range, or comes to its INSERT with an entry of [item_category_map], a
    price rounded from [5 + 45 * random()] and [100 + _randbelow(901)]
    calories. *)
Lemma menu_item_cases s :
  exists s1,
    conn s1 = conn s /\ inserted s1 = inserted s /\ stdout s1 = stdout s /\
    generated_emails s1 = generated_emails s /\
    ((menu_item rnd s = Raise IndexError s1 /\
      exists n i, (0 < n)%nat /\ ~ (randbelow rnd n i < n)%nat) \/
     exists name cat ingr i k avail,
       In (name, (cat, ingr)) item_category_map /\
       In avail ["Available"; "Out of Stock"] /\
       menu_item rnd s =
         cursor_execute
           (menu_insert name cat
              (round (5 + (50 - 5) * random_random rnd i) 2) ingr
              (100 + Z.of_nat k) avail) s1).
Proof.
  unfold menu_item, random_choice. rewrite bind_bind, bind_draw.
  set (s0 := State _ _ _ _ _).
  destruct (nth_error (keys item_category_map) _) as [name|] eqn:Hn.
  - rewrite bind_ret.
    destruct (dict_get_keys item_category_map name) as ([cat ingr] & -> & Hin).
    { eapply nth_error_In. exact Hn. }
    rewrite bind_ret. unfold random_uniform, random_randint.
    rewrite bind_bind, bind_draw, bind_ret, bind_bind, bind_draw, bind_ret,
      bind_bind, bind_draw.
    cbn [conn generated_emails draws inserted stdout fst snd].
    destruct (nth_error ["Available"; "Out of Stock"] _) as [avail|] eqn:Ha.
    + rewrite bind_ret. exists (later 4 s). split; [reflexivity|].
      do 3 (split; [reflexivity|]).
      right. do 6 eexists. split; [exact Hin|]. split; [|reflexivity].
      eapply nth_error_In. exact Ha.
    + exists (later 4 s). split; [reflexivity|].
      do 3 (split; [reflexivity|]).
      left. split; [reflexivity|]. eexists 2%nat, _. split; [lia|].
      apply nth_error_None in Ha. simpl in Ha. intros Hlt. apply Nat.lt_nge in Hlt.
      apply Hlt. exact Ha.
  - exists (later 1 s). split; [reflexivity|].
    do 3 (split; [reflexivity|]).
    left. split; [reflexivity|]. eexists 7%nat, _. split; [lia|].
    apply nth_error_None in Hn. simpl in Hn. intros Hlt. apply Nat.lt_nge in Hlt.
    apply Hlt. exact Hn.
Qed.

End Rounds.

(** ** The two INSERT statements on their tables *)

(** On the table as the script created it, the customers INSERT fails only
    on the UNIQUE constraint of the e-mail column. *)
Lemma insert_customer d tb name email phone tier address date :
  tables d !! "Customers" = Some tb -> t_schema tb = Customers_schema ->
  In tier ["Bronze"; "Silver"; "Gold"] ->
  let r := customer_row (t_seq tb + 1) name email phone tier address date in
  insert_into "Customers"
    ["name"; "email"; "phone"; "loyalty_tier"; "address"; "registered_date"]
    [VText name; sql_of_option email; VText phone; VText tier;
     VText address; VText date] d =
  if unique_ok "email" (t_rows tb) r
  then inr (r, Database
                 (<["Customers" := Table Customers_schema (t_seq tb + 1)
                                     (t_rows tb ++ [r])]> (tables d))
                 (indexes d))
  else inl IntegrityError.
Proof.
  intros Ht Hs Hin r. unfold insert_into. rewrite Ht, Hs.
  change (build_row Customers_schema (t_seq tb + 1) _ _) with r.
  cbn. destruct Hin as [<-|[<-|[<-|[]]]]; cbn; rewrite !andb_true_r; reflexivity.
Qed.

(** The menu-items INSERT fails only on the CHECKs of the price and of the
    calories. *)
Lemma insert_menu_item d tb name cat ingr price cal avail :
  tables d !! "Menu_Items" = Some tb -> t_schema tb = Menu_Items_schema ->
  In (name, (cat, ingr)) item_category_map ->
  In avail ["Available"; "Out of Stock"] ->
  let r := menu_row (t_seq tb + 1) name cat price ingr cal avail in
  insert_into "Menu_Items"
    ["item_name"; "category"; "price"; "ingredients"; "calories"; "availability"]
    [VText name; VText cat; VReal price; VText (join ", " ingr); VInt cal;
     VText avail] d =
  if Qltb 0 price && (0 <=? cal)
  then inr (r, Database
                 (<["Menu_Items" := Table Menu_Items_schema (t_seq tb + 1)
                                      (t_rows tb ++ [r])]> (tables d))
                 (indexes d))
  else inl IntegrityError.
Proof.
  intros Ht Hs Hin Ha r. unfold insert_into. rewrite Ht, Hs.
  change (build_row Menu_Items_schema (t_seq tb + 1) _ _) with r.
  cbn.
  assert (Hcat : existsb (String.eqb cat)
            ["Appetizer"; "Main Course"; "Dessert"; "Beverage"; "Breakfast"] = true).
  { simpl in Hin.
    repeat (destruct Hin as [Hin|Hin]; [injection Hin as <- <- <-; reflexivity|]).
    destruct Hin. }
  cbn in Hcat. rewrite Hcat.
  destruct Ha as [<-|[<-|[]]]; cbn; rewrite !andb_true_r;
    destruct (Qltb 0 price), (0 <=? cal); reflexivity.
Qed.

Lemma emails_of_snoc rows r :
  emails_of (rows ++ [r]) =
  (emails_of rows ++
   match cell "email" r with VText e => [e] | _ => [] end)%list.
Proof.
  unfold emails_of. rewrite omap_app. simpl.
  destruct (cell "email" r); reflexivity.
Qed.

(** UNIQUE on the e-mail column, read on the addresses stored so far. *)
Lemma unique_email_spec rows r e :
  cell "email" r = VText e ->
  unique_ok "email" rows r = true <-> ~ In e (emails_of rows).
Proof.
  intros Hc. unfold unique_ok. rewrite Hc.
  induction rows as [|r' rows IH]; simpl; [tauto|].
  unfold emails_of in *. simpl.
  destruct (cell "email" r') as [| | |e'] eqn:Hc'; simpl; try exact IH.
  destruct (String.eqb_spec e' e) as [->|Hne]; simpl.
  - split; [discriminate|]. intros H. exfalso. apply H. left. reflexivity.
  - rewrite IH. split.
    + intros H [Heq|Hin]; [congruence|contradiction].
    + intros H Hin. apply H. right. exact Hin.
Qed.

(** ** The invariant of a run, on states *)

Lemma created_in_insert t tb d :
  created_in d -> created_in (Database (<[t := tb]> (tables d)) (indexes d)).
Proof.
  intros Hc t' sch Hin. simpl. destruct (decide (t = t')) as [<-|Hne].
  - rewrite lookup_insert_eq. eauto.
  - rewrite lookup_insert_ne by exact Hne. eapply Hc. exact Hin.
Qed.

Lemma customers_ok_snoc rows gen r name email phone tier address date :
  customers_ok rows gen ->
  r = customer_row (Z.of_nat (length rows) + 1) name email phone tier address date ->
  unique_ok "email" rows r = true ->
  (forall e, email = Some e -> e <> "" -> e ∈ gen) ->
  customers_ok (rows ++ [r]) gen.
Proof.
  intros (Hnd & Htr & Hid) -> Hu Hnew.
  assert (Hcell : cell "email"
            (customer_row (Z.of_nat (length rows) + 1) name email phone tier address date)
          = sql_of_option email) by reflexivity.
  split; [|split].
  - rewrite emails_of_snoc, Hcell. destruct email as [e|]; simpl.
    + apply NoDup_app. split; [exact Hnd|]. split; [|apply NoDup_singleton].
      intros x Hx Hx'. apply list_elem_of_singleton in Hx'. subst x.
      apply (unique_email_spec rows _ e Hcell) in Hu. apply Hu.
      apply list_elem_of_In. exact Hx.
    + rewrite app_nil_r. exact Hnd.
  - intros e. rewrite emails_of_snoc, Hcell. intros Hin Hne.
    apply in_app_or in Hin as [Hin|Hin]; [auto|].
    destruct email as [e'|]; simpl in Hin; [|contradiction].
    destruct Hin as [<-|[]]. auto.
  - rewrite length_app, Nat.add_1_r, seq_S, !map_app, Hid. simpl.
    change (cell "customer_id" (customer_row ?id _ _ _ _ _ _)) with (VInt id).
    do 3 f_equal. lia.
Qed.

Lemma customers_ok_mono rows gen gen' :
  gen ⊆ gen' -> customers_ok rows gen -> customers_ok rows gen'.
Proof.
  intros Hsub (Hnd & Htr & Hid). split; [exact Hnd|]. split; [|exact Hid].
  intros e Hin Hne. apply Hsub. auto.
Qed.

Lemma Customers_dropped : In "Customers" tables_to_drop.
Proof. simpl. auto 10. Qed.

Lemma Menu_Items_dropped : In "Menu_Items" tables_to_drop.
Proof. simpl. auto 10. Qed.

(** The invariant does not read the count of draws, and only grows with
    [generated_emails]. *)
Lemma inv_same file s s1 :
  inv file s ->
  conn s1 = conn s -> inserted s1 = inserted s -> stdout s1 = stdout s ->
  generated_emails s ⊆ generated_emails s1 ->
  inv file s1.
Proof.
  intros [Hw Hd Ho Hl Hc] Hconn Hins Hout Hsub.
  constructor; rewrite ?Hconn, ?Hins, ?Hout; auto.
  eapply customers_ok_mono; eauto.
Qed.

Lemma inv_raised file s s' :
  inv file s ->
  working (conn s') = working (conn s) -> disk (conn s') = disk (conn s) ->
  inserted s' = inserted s -> generated_emails s' = generated_emails s ->
  stdout s' = stdout s ->
  inv file s'.
Proof.
  intros [Hw Hd Ho Hl Hc] Hwk Hdk Hins Hgen Hout.
  constructor; rewrite ?Hwk, ?Hdk, ?Hins, ?Hgen, ?Hout; auto.
Qed.

Lemma Qltb_lt x y : Qltb x y = true <-> (x < y)%Q.
Proof. unfold Qltb, Qlt. apply Z.ltb_lt. Qed.

(** Rounding does not go below an integer the number is not below. *)
Lemma round_half_even_lower (y : Q) (k : Z) :
  (inject_Z k <= y)%Q -> k <= round_half_even y.
Proof.
  unfold Qle, round_half_even. simpl. intros H.
  assert (Hf : k <= Qnum y / Z.pos (Qden y)).
  { apply Z.div_le_lower_bound; lia. }
  destruct (2 * (Qnum y mod Z.pos (Qden y)) ?= Z.pos (Qden y)); [|lia|lia].
  destruct (Z.even _); lia.
Qed.

(** The price of a menu item is positive when [random()] is not negative. *)
Lemma price_positive (r : Q) :
  (0 <= r)%Q -> (0 < round (5 + (50 - 5) * r) 2)%Q.
Proof.
  intros Hr. unfold round, Qlt. cbn [Qnum Qden].
  assert (H : 1 <= round_half_even ((5 + (50 - 5) * r) * inject_Z (10 ^ Z.of_nat 2))).
  { apply round_half_even_lower.
    change (inject_Z (10 ^ Z.of_nat 2)) with (100 # 1).
    apply Qle_trans with (5 * (100 # 1))%Q; [discriminate|].
    apply Qmult_le_compat_r; [|discriminate].
    rewrite <- (Qplus_0_r 5) at 1. apply Qplus_le_r.
    apply Qmult_le_0_compat; [discriminate|exact Hr]. }
  lia.
Qed.

Section Steps.

Variable rnd : oracle.
Variable fuel : nat.
Variable file : database.

(** One round of the customers loop keeps the invariant and stores one
    more customer; when it raises, the oracle has broken a promise of the
    libraries. *)
Lemma customer_step k m :
  hoare (fun s => populating file s /\ count "Customers" s = k /\
                  count "Menu_Items" s = m)
    (customer rnd fuel)
    (fun _ s => populating file s /\ count "Customers" s = S k /\
                count "Menu_Items" s = m)
    (fun _ s => populating file s /\ ~ lib_contract rnd).
Proof.
  intros s ((Hinv & Hcw & Hcd) & Hk & Hm).
  destruct (customer_cases rnd fuel s)
    as [->|(s1 & email & Hc & Hi & Ho & Hem & Hres)]; [exact I|].
  assert (Hsub : generated_emails s ⊆ generated_emails s1).
  { destruct email as [e|]; [destruct Hem as (_ & [[_ ->]|[_ ->]])|rewrite Hem];
      try reflexivity. apply union_subseteq_r. }
  assert (Hinv1 : inv file s1) by (eapply inv_same; eauto).
  destruct Hres as [[-> Hbad]|(name & phone & tier & address & date & Htier & ->)].
  - split; [split; [exact Hinv1|rewrite Hc; auto]|].
    intros Hlc. destruct Hbad as [i Hb]. apply Hb.
    apply (randbelow_lt rnd Hlc). lia.
  - rewrite <- Hc in Hcw.
    destruct (Hcw "Customers" Customers_schema) as [tb Htb]; [simpl; auto|].
    destruct (inv_working _ _ Hinv1) as [Hok _].
    specialize (Hok "Customers" Customers_dropped). rewrite Htb in Hok.
    destruct Hok as (Hs & Hr & Hq). cbn in Hs. injection Hs as Hs.
    pose proof (insert_customer (working (conn s1)) tb name email phone tier
                  address date Htb (eq_sym Hs) Htier) as Hins.
    cbv zeta in Hins.
    set (r := customer_row (t_seq tb + 1) name email phone tier address date) in Hins.
    destruct (unique_ok "email" (t_rows tb) r) eqn:Hu.
    + destruct (cursor_execute _ s1) as [[] s'|e s'|] eqn:Hce.
      * apply cursor_execute_ok in Hce as (r0 & Hrun & Hdisk & Hlog & Hg & _ & Hout).
        cbn [run_stmt customer_insert] in Hrun. rewrite Hins in Hrun.
        injection Hrun as <- Hw. cbn [customer_insert] in Hlog.
        destruct Hdisk as [Hdisk _]. destruct Hdisk as [Hdisk _]; [left; reflexivity|].
        assert (Hrows : rows_in "Customers" (inserted s') =
                        (rows_in "Customers" (inserted s1) ++ [r])%list).
        { rewrite Hlog. apply rows_in_snoc_eq. }
        split; [split; [|split]|split].
        -- constructor.
           ++ rewrite Hlog, <- Hw. eapply db_ok_insert.
              ** exact Customers_dropped.
              ** exact (inv_working _ _ Hinv1).
              ** exact Hins.
           ++ rewrite Hdisk. exact (inv_disk _ _ Hinv1).
           ++ rewrite Hout. exact (inv_stdout _ _ Hinv1).
           ++ intros t r'. rewrite Hlog. intros Hin.
              apply in_app_or in Hin as [Hin|[Heq|[]]].
              ** exact (inv_log _ _ Hinv1 t r' Hin).
              ** injection Heq as <- _. left. reflexivity.
           ++ rewrite Hrows, Hg.
              eapply customers_ok_snoc.
              ** exact (inv_customers _ _ Hinv1).
              ** unfold r. rewrite Hq, Hr. reflexivity.
              ** rewrite <- Hr. exact Hu.
              ** intros e -> Hne. destruct Hem as (_ & [[He _]|[_ ->]]);
                   [contradiction|]. apply elem_of_union_l, elem_of_singleton.
                 reflexivity.
        -- rewrite <- Hw. apply created_in_insert. exact Hcw.
        -- rewrite Hdisk, Hc. exact Hcd.
        -- unfold count. rewrite Hrows, length_app, Hi. simpl.
           unfold count in Hk. lia.
        -- unfold count. rewrite Hlog, rows_in_snoc_ne by discriminate.
           rewrite Hi. exact Hm.
      * apply cursor_execute_raise in Hce as (Hrun & _).
        cbn [run_stmt customer_insert] in Hrun. rewrite Hins in Hrun. discriminate.
      * exact I.
    + destruct (cursor_execute _ s1) as [[] s'|x s'|] eqn:Hce.
      * apply cursor_execute_ok in Hce as (r0 & Hrun & _).
        cbn [run_stmt customer_insert] in Hrun. rewrite Hins in Hrun. discriminate.
      * apply cursor_execute_raise in Hce as (Hrun & Hw & Hdisk & Hlog & Hg & _ & Hout).
        split; [split; [|split]|].
        -- eapply inv_raised; eauto.
        -- rewrite Hw. exact Hcw.
        -- rewrite Hdisk, Hc. exact Hcd.
        -- intros Hlc. destruct email as [e|]; [|discriminate].
           destruct Hem as ([i He] & Hem).
           assert (Hne : e <> "") by (rewrite He; apply (email_nonempty rnd Hlc)).
           destruct Hem as [[He' _]|[Hfresh _]]; [contradiction|].
           assert (Hin : In e (emails_of (t_rows tb))).
           { destruct (in_dec string_dec e (emails_of (t_rows tb))) as [Hin|Hnin];
               [exact Hin|].
             apply (unique_email_spec (t_rows tb) r e eq_refl) in Hnin.
             congruence. }
           rewrite Hr, Hi in Hin.
           destruct (inv_customers _ _ Hinv) as (_ & Htr & _).
           apply Hfresh. apply Htr; assumption.
      * exact I.
Qed.

(** One round of the menu-items loop keeps the invariant and stores one
    more menu item. *)
Lemma menu_item_step k m :
  hoare (fun s => populating file s /\ count "Customers" s = k /\
                  count "Menu_Items" s = m)
    (menu_item rnd)
    (fun _ s => populating file s /\ count "Customers" s = k /\
                count "Menu_Items" s = S m)
    (fun _ s => populating file s /\ ~ lib_contract rnd).
Proof.
  intros s ((Hinv & Hcw & Hcd) & Hk & Hm).
  destruct (menu_item_cases rnd s) as (s1 & Hc & Hi & Ho & Hg1 & Hres).
  assert (Hinv1 : inv file s1).
  { eapply inv_same; eauto. rewrite Hg1. reflexivity. }
  destruct Hres as [[-> Hbad]|(name & cat & ingr & i & j & avail & Hmap & Hav & ->)].
  - split; [split; [exact Hinv1|rewrite Hc; auto]|].
    intros Hlc. destruct Hbad as (n & x & Hn & Hb). apply Hb.
    apply (randbelow_lt rnd Hlc). exact Hn.
  - rewrite <- Hc in Hcw.
    destruct (Hcw "Menu_Items" Menu_Items_schema) as [tb Htb]; [simpl; auto|].
    destruct (inv_working _ _ Hinv1) as [Hok _].
    specialize (Hok "Menu_Items" Menu_Items_dropped). rewrite Htb in Hok.
    destruct Hok as (Hs & Hr & Hq). cbn in Hs. injection Hs as Hs.
    set (price := round (5 + (50 - 5) * random_random rnd i) 2).
    set (cal := 100 + Z.of_nat j).
    pose proof (insert_menu_item (working (conn s1)) tb name cat ingr price cal
                  avail Htb (eq_sym Hs) Hmap Hav) as Hins.
    cbv zeta in Hins.
    set (r := menu_row (t_seq tb + 1) name cat price ingr cal avail) in Hins.
    assert (Hcal : (0 <=? cal) = true) by (apply Z.leb_le; unfold cal; lia).
    rewrite Hcal, andb_true_r in Hins.
    destruct (Qltb 0 price) eqn:Hp.
    + destruct (cursor_execute _ s1) as [[] s'|e s'|] eqn:Hce.
      * apply cursor_execute_ok in Hce as (r0 & Hrun & Hdisk & Hlog & Hg & _ & Hout).
        cbn [run_stmt menu_insert] in Hrun. rewrite Hins in Hrun.
        injection Hrun as <- Hw. cbn [menu_insert] in Hlog.
        destruct Hdisk as [Hdisk _]. destruct Hdisk as [Hdisk _]; [left; reflexivity|].
        split; [split; [|split]|split].
        -- constructor.
           ++ rewrite Hlog, <- Hw. eapply db_ok_insert.
              ** exact Menu_Items_dropped.
              ** exact (inv_working _ _ Hinv1).
              ** exact Hins.
           ++ rewrite Hdisk. exact (inv_disk _ _ Hinv1).
           ++ rewrite Hout. exact (inv_stdout _ _ Hinv1).
           ++ intros t r'. rewrite Hlog. intros Hin.
              apply in_app_or in Hin as [Hin|[Heq|[]]].
              ** exact (inv_log _ _ Hinv1 t r' Hin).
              ** injection Heq as <- <-. right. split; [reflexivity|].
                 exists (t_seq tb + 1), name, cat, ingr, price, cal, avail.
                 split; [reflexivity|]. split; [exact Hmap|].
                 split; [apply Qltb_lt; exact Hp|unfold cal; lia].
           ++ rewrite Hlog, rows_in_snoc_ne by discriminate. rewrite Hg.
              exact (inv_customers _ _ Hinv1).
        -- rewrite <- Hw. apply created_in_insert. exact Hcw.
        -- rewrite Hdisk, Hc. exact Hcd.
        -- unfold count. rewrite Hlog, rows_in_snoc_ne by discriminate.
           rewrite Hi. exact Hk.
        -- unfold count. rewrite Hlog, rows_in_snoc_eq, length_app, Hi. simpl.
           unfold count in Hm. lia.
      * apply cursor_execute_raise in Hce as (Hrun & _).
        cbn [run_stmt menu_insert] in Hrun. rewrite Hins in Hrun. discriminate.
      * exact I.
    + destruct (cursor_execute _ s1) as [[] s'|x s'|] eqn:Hce.
      * apply cursor_execute_ok in Hce as (r0 & Hrun & _).
        cbn [run_stmt menu_insert] in Hrun. rewrite Hins in Hrun. discriminate.
      * apply cursor_execute_raise in Hce as (Hrun & Hw & Hdisk & Hlog & Hg & _ & Hout).
        split; [split; [|split]|].
        -- eapply inv_raised; eauto.
        -- rewrite Hw. exact Hcw.
        -- rewrite Hdisk, Hc. exact Hcd.
        -- intros Hlc.
           assert (Hpos : (0 < price)%Q).
           { apply price_positive. apply (random_unit rnd Hlc). }
           apply Qltb_lt in Hpos. congruence.
      * exact I.
Qed.

End Steps.

(** ** The phases of the script *)

Lemma state_eta s c :
  conn s = c ->
  s = State c (generated_emails s) (draws s) (inserted s) (stdout s).
Proof. intros <-. destruct s. reflexivity. Qed.

(** Outside a transaction the DROP loop cannot fail and works on the file. *)
Lemma for_each_drop (l : list string) s :
  txn (conn s) = None ->
  for_each l (fun t => cursor_execute (DropTableIfExists t)) s =
  Ok tt (State (connect (fold_left (fun d t => drop_table_if_exists t d) l
                           (disk (conn s))))
           (generated_emails s) (draws s) (inserted s) (stdout s)).
Proof.
  revert s. induction l as [|t l IH]; intros s Ht; simpl.
  - unfold ret. f_equal. apply state_eta.
    destruct (conn s) as [d x]. simpl in *. subst x. reflexivity.
  - unfold bind at 1.
    assert (Hex : cursor_execute (DropTableIfExists t) s =
                  Ok tt (State (connect (drop_table_if_exists t (disk (conn s))))
                           (generated_emails s) (draws s) (inserted s) (stdout s))).
    { unfold cursor_execute, execute, begin_if_dml, store, working. simpl.
      rewrite Ht. reflexivity. }
    rewrite Hex. rewrite IH by reflexivity. reflexivity.
Qed.

Lemma fold_drop_lookup (l : list string) d t :
  tables (fold_left (fun d t => drop_table_if_exists t d) l d) !! t =
  if in_dec string_dec t l then None else tables d !! t.
Proof.
  revert d. induction l as [|t' l IH]; intros d; simpl; [reflexivity|].
  rewrite IH. destruct (in_dec string_dec t l) as [Hin|Hnin].
  - destruct (string_dec t' t); reflexivity.
  - destruct (string_dec t' t) as [->|Hne]; simpl.
    + apply lookup_delete_eq.
    + apply lookup_delete_ne. exact Hne.
Qed.

Lemma dropped_gone file t :
  In t tables_to_drop -> tables (dropped file) !! t = None.
Proof.
  intros Hin. unfold dropped. rewrite fold_drop_lookup.
  destruct (in_dec string_dec t tables_to_drop); [reflexivity|contradiction].
Qed.

Lemma dropped_kept file t :
  ~ In t tables_to_drop -> tables (dropped file) !! t = tables file !! t.
Proof.
  intros Hin. unfold dropped. rewrite fold_drop_lookup.
  destruct (in_dec string_dec t tables_to_drop); [contradiction|reflexivity].
Qed.

Lemma db_ok_dropped file : db_ok file [] (dropped file).
Proof.
  split; intros t Ht.
  - rewrite dropped_gone by exact Ht. reflexivity.
  - apply dropped_kept. exact Ht.
Qed.

Lemma db_ok_tables file log d d' :
  tables d' = tables d -> db_ok file log d -> db_ok file log d'.
Proof. unfold db_ok. intros ->. auto. Qed.

Lemma created_in_tables d d' :
  tables d' = tables d -> created_in d -> created_in d'.
Proof. unfold created_in. intros ->. auto. Qed.

Lemma create_index_tables i t c d d' :
  create_index_if_not_exists i t c d = inr d' -> tables d' = tables d.
Proof.
  unfold create_index_if_not_exists.
  destruct (indexes d !! i); [intros H; injection H as <-; reflexivity|].
  destruct (tables d !! t); [|discriminate].
  intros H; injection H as <-. reflexivity.
Qed.

Section Phases.

Variable file : database.

Lemma drop_tables_spec s0 :
  conn s0 = connect file -> generated_emails s0 = ∅ -> inserted s0 = [] ->
  stdout s0 = [] ->
  exists s, drop_tables s0 = Ok tt s /\ creating file [] s /\
            disk (conn s) = dropped file.
Proof.
  intros Hc Hg Hi Ho. unfold drop_tables. rewrite for_each_drop by (rewrite Hc; reflexivity).
  eexists. split; [reflexivity|]. rewrite Hc. simpl.
  split; [|reflexivity].
  split; [|simpl; rewrite Hi, Hg; repeat split; auto; intros t []].
  constructor; simpl; rewrite ?Hi, ?Hg, ?Ho.
  - apply db_ok_dropped.
  - apply db_ok_dropped.
  - reflexivity.
  - intros t r [].
  - split; [constructor|]. split; [intros e []|reflexivity].
Qed.

Lemma create_step names t sch :
  dict_get created_tables t = Some sch -> In t tables_to_drop ->
  hoare (creating file names)
    (cursor_execute (CreateTableIfNotExists t sch))
    (fun _ => creating file (t :: names))
    (fun _ _ => False).
Proof.
  intros Hsch Hin s (Hinv & Htx & Hlog & Hgen & Hex).
  assert (Hwd : working (conn s) = disk (conn s)).
  { unfold working. rewrite Htx. reflexivity. }
  destruct (cursor_execute _ s) as [[] s'|e s'|] eqn:Hce; [| |exact I].
  - apply cursor_execute_ok in Hce as (r & Hrun & Hdisk & Hl & Hg & _ & Hout).
    cbn [run_stmt] in Hrun. injection Hrun as <- Hw.
    destruct Hdisk as [_ Hdisk]. destruct (Hdisk eq_refl Htx) as [Htx' Hdisk'].
    clear Hdisk. rename Hdisk' into Hdisk.
    assert (Hok : db_ok file [] (working (conn s'))).
    { rewrite <- Hw. apply db_ok_create; auto.
      rewrite <- Hlog. exact (inv_working _ _ Hinv). }
    split; [|split; [exact Htx'|split; [congruence|split; [congruence|]]]].
    + constructor.
      * rewrite Hl, Hlog. exact Hok.
      * rewrite Hdisk. exact Hok.
      * rewrite Hout. exact (inv_stdout _ _ Hinv).
      * rewrite Hl, Hlog. intros t' r' [].
      * rewrite Hl, Hg. exact (inv_customers _ _ Hinv).
    + intros t' [<-|Ht']; rewrite Hdisk, <- Hw, Hwd;
        unfold create_table_if_not_exists.
      * destruct (tables (disk (conn s)) !! t) eqn:Ht; [rewrite Ht; eauto|].
        simpl. rewrite lookup_insert_eq. eauto.
      * destruct (tables (disk (conn s)) !! t) eqn:Ht; [auto|].
        simpl. destruct (decide (t = t')) as [<-|Hne].
        -- rewrite lookup_insert_eq. eauto.
        -- rewrite lookup_insert_ne by exact Hne. auto.
  - apply cursor_execute_raise in Hce as (Hrun & _). discriminate Hrun.
Qed.

Lemma create_tables_spec :
  hoare (creating file []) create_tables
    (fun _ s => populating file s /\ txn (conn s) = None /\ inserted s = [] /\
                generated_emails s = ∅)
    (fun _ _ => False).
Proof.
  unfold create_tables.
  repeat (eapply hoare_bind;
          [apply create_step; [reflexivity|in_list]|intros ?; cbv beta]).
  eapply hoare_conseq.
  - eapply create_step; [reflexivity|in_list].
  - intros s H. exact H.
  - intros _ s (Hinv & Htx & Hlog & Hgen & Hex).
    assert (Hcr : created_in (disk (conn s))).
    { intros t sch Hin. apply Hex. simpl in Hin. simpl.
      repeat (destruct Hin as [Hin|Hin]; [injection Hin as <- _; in_list|]).
      destruct Hin. }
    split; [split; [exact Hinv|split; [|exact Hcr]]|auto].
    unfold working. rewrite Htx. exact Hcr.
  - auto.
Qed.

(** A CREATE INDEX on a table of the script keeps the invariant and cannot
    raise. *)
Lemma index_step (P : state -> Prop) i t c sch :
  In (t, sch) created_tables ->
  (forall s s', P s -> inserted s' = inserted s -> stdout s' = stdout s ->
                generated_emails s' = generated_emails s -> P s') ->
  hoare (fun s => populating file s /\ P s)
    (cursor_execute (CreateIndexIfNotExists i t c))
    (fun _ s => populating file s /\ P s)
    (fun _ _ => False).
Proof.
  intros Hin HP s ((Hinv & Hcw & Hcd) & HPs).
  destruct (cursor_execute _ s) as [[] s'|e s'|] eqn:Hce; [| |exact I].
  - apply cursor_execute_ok in Hce as (r & Hrun & Hdisk & Hl & Hg & _ & Hout).
    cbn [run_stmt] in Hrun.
    destruct (create_index_if_not_exists i t c (working (conn s))) as [|d'] eqn:Hci;
      [discriminate|].
    injection Hrun as <- Hw. apply create_index_tables in Hci. rewrite Hw in Hci.
    assert (Hd : tables (disk (conn s')) = tables (disk (conn s))).
    { destruct (txn (conn s)) as [w|] eqn:Htx.
      - destruct Hdisk as [Hdisk _]. destruct Hdisk as [-> _]; [right; discriminate|].
        reflexivity.
      - destruct Hdisk as [_ Hdisk]. destruct (Hdisk eq_refl eq_refl) as [_ ->].
        rewrite Hci. unfold working. rewrite Htx. reflexivity. }
    split; [split; [|split]|eapply HP; eauto].
    + constructor.
      * rewrite Hl. eapply db_ok_tables; [exact Hci|]. exact (inv_working _ _ Hinv).
      * eapply db_ok_tables; [exact Hd|]. exact (inv_disk _ _ Hinv).
      * rewrite Hout. exact (inv_stdout _ _ Hinv).
      * rewrite Hl. exact (inv_log _ _ Hinv).
      * rewrite Hl, Hg. exact (inv_customers _ _ Hinv).
    + eapply created_in_tables; [exact Hci|exact Hcw].
    + eapply created_in_tables; [exact Hd|exact Hcd].
  - apply cursor_execute_raise in Hce as (Hrun & _).
    cbn [run_stmt] in Hrun. unfold create_index_if_not_exists in Hrun.
    destruct (indexes (working (conn s)) !! i); [discriminate|].
    destruct (Hcw t sch Hin) as [tb Htb]. rewrite Htb in Hrun. discriminate.
Qed.

Lemma create_indexes_spec (P : state -> Prop) :
  (forall s s', P s -> inserted s' = inserted s -> stdout s' = stdout s ->
                generated_emails s' = generated_emails s -> P s') ->
  hoare (fun s => populating file s /\ P s) create_indexes
    (fun _ s => populating file s /\ P s)
    (fun _ _ => False).
Proof.
  intros HP. unfold create_indexes.
  repeat (eapply hoare_bind;
          [eapply index_step; [in_list|exact HP]|intros ?; cbv beta]).
  eapply index_step; [in_list|exact HP].
Qed.

End Phases.

(** ** The whole run *)

Lemma hoare_no_raise {A} (m : M A) P Q E :
  hoare P m Q (fun _ _ => False) -> hoare P m Q E.
Proof. intros H. eapply hoare_conseq; [exact H|auto|auto|intros _ _ []]. Qed.

Section Run.

Variable rnd : oracle.
Variable fuel : nat.
Variable file : database.

Lemma populate_customers_spec :
  hoare (fun s => populating file s /\ count "Customers" s = 0%nat /\
                  count "Menu_Items" s = 0%nat)
    (populate_customers rnd fuel)
    (fun _ s => populating file s /\ count "Customers" s = 1500%nat /\
                count "Menu_Items" s = 0%nat)
    (fun _ s => populating file s /\ ~ lib_contract rnd).
Proof.
  unfold populate_customers.
  eapply hoare_conseq.
  - apply (hoare_for_range
             (fun i s => populating file s /\ count "Customers" s = i /\
                         count "Menu_Items" s = 0%nat)
             (fun _ s => populating file s /\ ~ lib_contract rnd)
             (customer rnd fuel) 1500 0).
    intros i. apply customer_step.
  - auto.
  - intros a s H. rewrite Nat.add_0_r in H. exact H.
  - auto.
Qed.

Lemma populate_menu_items_spec :
  hoare (fun s => populating file s /\ count "Customers" s = 1500%nat /\
                  count "Menu_Items" s = 0%nat)
    (populate_menu_items rnd)
    (fun _ s => populating file s /\ count "Customers" s = 1500%nat /\
                count "Menu_Items" s = 100%nat)
    (fun _ s => populating file s /\ ~ lib_contract rnd).
Proof.
  unfold populate_menu_items.
  eapply hoare_conseq.
  - apply (hoare_for_range
             (fun j s => populating file s /\ count "Customers" s = 1500%nat /\
                         count "Menu_Items" s = j)
             (fun _ s => populating file s /\ ~ lib_contract rnd)
             (menu_item rnd) 100 0).
    intros j. apply menu_item_step.
  - auto.
  - intros a s H. rewrite Nat.add_0_r in H. exact H.
  - auto.
Qed.

Lemma commit_close_print_spec msg :
  hoare (fun s => populating file s /\ count "Customers" s = 1500%nat /\
                  count "Menu_Items" s = 100%nat)
    (conn_commit ;; conn_close ;; print msg)
    (fun _ s => db_ok file (inserted s) (disk (conn s)) /\
                created_in (disk (conn s)) /\ txn (conn s) = None /\
                (forall t r, In (t, r) (inserted s) ->
                   t = "Customers" \/ (t = "Menu_Items" /\ menu_row_ok r)) /\
                customers_ok (rows_in "Customers" (inserted s)) (generated_emails s) /\
                count "Customers" s = 1500%nat /\ count "Menu_Items" s = 100%nat /\
                stdout s = [msg])
    (fun _ _ => False).
Proof.
  intros s ((Hinv & Hcw & Hcd) & Hk & Hm).
  unfold bind, conn_commit, conn_close, print, commit, close. simpl.
  rewrite (inv_stdout _ _ Hinv).
  repeat split; auto.
  - apply (inv_working _ _ Hinv).
  - apply (inv_working _ _ Hinv).
  - exact (inv_log _ _ Hinv).
  - apply (inv_customers _ _ Hinv).
  - apply (inv_customers _ _ Hinv).
  - apply (inv_customers _ _ Hinv).
Qed.

(** The run, whatever the oracle and the initial file: when it finishes
    the state is [completed]; when it raises, the tables are there, the
    invariant holds (the file has none of the rows inserted) and the
    oracle has broken a promise of the libraries. *)
Theorem run_spec :
  match run rnd fuel file with
  | Ok _ s => completed file s
  | Raise _ s => populating file s /\ ~ lib_contract rnd
  | Diverge => True
  end.
Proof.
  unfold run, main.
  destruct (drop_tables_spec file (State (connect file) ∅ 0 [] [])
              eq_refl eq_refl eq_refl eq_refl) as (s1 & Hd & Hcr & _).
  rewrite (bind_returned _ _ _ _ _ Hd).
  clear Hd. revert s1 Hcr.
  change (hoare (creating file [])
            (create_tables ;; populate_customers rnd fuel ;;
             populate_menu_items rnd ;; create_indexes ;; conn_commit ;;
             conn_close ;;
             print "Database with 10 tables and realistic data created successfully!")
            (fun _ s => completed file s)
            (fun _ s => populating file s /\ ~ lib_contract rnd)).
  eapply hoare_bind; [apply hoare_no_raise, create_tables_spec|].
  intros ?. cbv beta.
  eapply hoare_bind.
  { eapply hoare_conseq; [apply populate_customers_spec| | |].
    - intros s (Hp & _ & Hlog & _). unfold count. rewrite Hlog. auto.
    - intros x s H. exact H.
    - auto. }
  intros ?. cbv beta.
  eapply hoare_bind; [apply populate_menu_items_spec|].
  intros ?. cbv beta.
  eapply hoare_bind.
  { apply hoare_no_raise.
    apply (create_indexes_spec file
             (fun s => count "Customers" s = 1500%nat /\
                       count "Menu_Items" s = 100%nat)).
    unfold count. intros s s' H ->. auto. }
  intros ?. cbv beta.
  apply hoare_no_raise. apply commit_close_print_spec.
Qed.

End Run.

(** ** Termination *)


Lemma total_bind {A B} (m : M A) (k : A -> M B) :
  total m -> (forall a, total (k a)) -> total (bind m k).
Proof.
  intros Hm Hk s. unfold bind. specialize (Hm s).
  destruct (m s) as [a s1|e s1|]; [apply Hk|discriminate|contradiction].
Qed.

Lemma total_for_range (body : M unit) k : total body -> total (for_range k body).
Proof.
  intros Hb. induction k as [|k IH]; simpl.
  - intros s. discriminate.
  - apply total_bind; auto.
Qed.

Lemma total_cursor_execute st : total (cursor_execute st).
Proof. intros s. apply cursor_execute_converges. Qed.

(** A loop of rounds that each end, given fuel enough, ends given fuel
    enough. *)
Lemma for_range_terminates (body : nat -> M unit) :
  mono body ->
  (forall s, exists F, forall n, (F <= n)%nat -> body n s <> Diverge) ->
  forall k s, exists F, forall n, (F <= n)%nat -> for_range k (body n) s <> Diverge.
Proof.
  intros Hm Hb k. induction k as [|k IH]; intros s; simpl.
  - exists 0%nat. intros n _. discriminate.
  - destruct (Hb s) as [F1 HF1].
    destruct (body F1 s) as [a s1|e s1|] eqn:Hr.
    + destruct (IH s1) as [F2 HF2]. exists (Nat.max F1 F2). intros n Hn.
      unfold bind. rewrite (Hm F1 n s) by (try rewrite Hr; try discriminate; lia).
      rewrite Hr. apply HF2. lia.
    + exists F1. intros n Hn.
      unfold bind. rewrite (Hm F1 n s) by (try rewrite Hr; try discriminate; lia).
      rewrite Hr. discriminate.
    + exfalso. apply (HF1 F1); [lia|exact Hr].
Qed.

Section Termination.

Variable rnd : oracle.

Lemma mono_regenerate e : mono (fun n => regenerate rnd n e).
Proof.
  intros n. revert e. induction n as [|n IH]; intros e n' s Hle Hnd.
  - simpl in Hnd. destruct n'; simpl;
      destruct (decide (e ∈ generated_emails s)); try reflexivity; contradiction.
  - destruct n' as [|n']; [lia|]. simpl in *.
    destruct (decide (e ∈ generated_emails s)); [|reflexivity].
    rewrite bind_draw in *. apply IH; [lia|exact Hnd].
Qed.

(** The while loop ends as soon as the fuel reaches a fresh draw. *)
Lemma regenerate_reaches k :
  forall e s n,
    faker_email rnd (draws s + k) ∉ generated_emails s -> (k < n)%nat ->
    regenerate rnd n e s <> Diverge.
Proof.
  induction k as [|k IH]; intros e s n Hf Hn.
  - destruct n as [|n]; [lia|]. simpl.
    destruct (decide (e ∈ generated_emails s)); [|discriminate].
    rewrite bind_draw. rewrite Nat.add_0_r in Hf.
    destruct n; simpl; destruct (decide _) as [Hin|_]; try discriminate;
      contradiction.
  - destruct n as [|n]; [lia|]. simpl.
    destruct (decide (e ∈ generated_emails s)); [|discriminate].
    rewrite bind_draw. apply IH; [|lia].
    replace (draws s + S k)%nat with (S (draws s) + k)%nat in Hf by lia. exact Hf.
Qed.

Lemma regenerate_never_fresh e s :
  e ∈ generated_emails s ->
  (forall k, faker_email rnd (draws s + k) ∈ generated_emails s) ->
  forall n, regenerate rnd n e s = Diverge.
Proof.
  intros He Hall n. revert e s He Hall. induction n as [|n IH]; intros e s He Hall; simpl.
  - destruct (decide _); [reflexivity|contradiction].
  - destruct (decide _); [|contradiction].
    rewrite bind_draw. apply IH; simpl.
    + specialize (Hall 0%nat). rewrite Nat.add_0_r in Hall. exact Hall.
    + intros k. specialize (Hall (S k)).
      replace (draws s + S k)%nat with (S (draws s) + k)%nat in Hall by lia.
      exact Hall.
Qed.

(** A round of the customers loop diverges only in its while loop. *)
Lemma customer_diverges n s :
  customer rnd n s = Diverge ->
  regenerate rnd n (faker_email rnd (S (draws s))) (later 2 s) = Diverge.
Proof.
  unfold customer. rewrite bind_draw.
  set (s0 := State _ _ _ _ _).
  destruct (Qltb (random_random rnd (draws s)) (1 # 10)).
  - rewrite bind_ret, bind_ret. intros Hd.
    destruct (customer_tail rnd s0 None) as [[Hr _]|(a & b & c & d & e & _ & Hr)];
      cbv zeta in Hr; rewrite Hr in Hd; [discriminate|].
    exfalso. exact (cursor_execute_converges _ _ Hd).
  - rewrite bind_bind, bind_draw, bind_ret.
    set (s0' := State _ _ _ _ _).
    change (draws s0) with (S (draws s)).
    set (e := faker_email rnd (S (draws s))).
    change (later 2 s) with s0'.
    destruct (truthy (Some e)) eqn:Htr.
    + rewrite bind_bind.
      destruct (regenerate rnd n e s0') as [e' s'| |] eqn:Hreg; [| |reflexivity].
      * rewrite (bind_returned _ _ _ _ _ Hreg).
        rewrite bind_bind.
        change (bind (generated_emails_add e') ?k s') with
          (k tt (State (conn s') ({[e']} ∪ generated_emails s') (draws s')
                   (inserted s') (stdout s'))).
        cbv beta. rewrite bind_ret. intros Hd.
        match type of Hd with _ ?st = _ =>
          destruct (customer_tail rnd st (Some e'))
            as [[Hr _]|(a & b & c & d & x & _ & Hr)]
        end; cbv zeta in Hr; rewrite Hr in Hd; [discriminate|].
        exfalso. exact (cursor_execute_converges _ _ Hd).
      * destruct (regenerate_cases rnd n e s0') as [Hx|(e' & s' & Hx & _)];
          rewrite Hx in Hreg; discriminate.
    + rewrite bind_ret. intros Hd.
      destruct (customer_tail rnd s0' (Some e))
        as [[Hr _]|(a & b & c & d & x & _ & Hr)];
        cbv zeta in Hr; rewrite Hr in Hd; [discriminate|].
      exfalso. exact (cursor_execute_converges _ _ Hd).
Qed.

Lemma mono_customer : mono (customer rnd).
Proof.
  intros n n' s Hle. unfold customer. rewrite !bind_draw.
  set (s0 := State _ _ _ _ _).
  destruct (Qltb (random_random rnd (draws s)) (1 # 10)); [reflexivity|].
  rewrite !bind_bind, !bind_draw, !bind_ret.
  set (s0' := State _ _ _ _ _).
  set (e := faker_email rnd (draws s0)).
  destruct (truthy (Some e)); [|reflexivity].
  rewrite !bind_bind. intros Hnd. unfold bind at 1. unfold bind at 3.
  rewrite (mono_regenerate e n n' s0' Hle); [reflexivity|].
  intros Hd. apply Hnd. apply bind_diverge. exact Hd.
Qed.

Hypothesis fresh : eventually_fresh rnd.

Lemma regenerate_terminates e s :
  exists F, forall n, (F <= n)%nat -> regenerate rnd n e s <> Diverge.
Proof.
  destruct (fresh (generated_emails s) (draws s)) as [k Hk].
  exists (S k). intros n Hn. apply (regenerate_reaches k); [exact Hk|lia].
Qed.

Lemma customer_terminates s :
  exists F, forall n, (F <= n)%nat -> customer rnd n s <> Diverge.
Proof.
  destruct (regenerate_terminates (faker_email rnd (S (draws s))) (later 2 s))
    as [F HF].
  exists F. intros n Hn Hd. apply (HF n Hn). apply customer_diverges. exact Hd.
Qed.

Lemma populate_customers_terminates s :
  exists F, forall fuel, (F <= fuel)%nat -> populate_customers rnd fuel s <> Diverge.
Proof.
  unfold populate_customers.
  apply (for_range_terminates (customer rnd) mono_customer customer_terminates).
Qed.

End Termination.

Section RunEnds.

Variable rnd : oracle.

Lemma total_menu_item : total (menu_item rnd).
Proof.
  intros s Hd.
  destruct (menu_item_cases rnd s) as (s1 & _ & _ & _ & _ & [[Hr _]|Hr]).
  - rewrite Hr in Hd. discriminate.
  - destruct Hr as (a & b & c & d & e & f & _ & _ & Hr). rewrite Hr in Hd.
    exact (cursor_execute_converges _ _ Hd).
Qed.

Lemma total_create_tables : total create_tables.
Proof.
  unfold create_tables.
  repeat (apply total_bind; [apply total_cursor_execute|intros _]).
  apply total_cursor_execute.
Qed.

Lemma total_create_indexes : total create_indexes.
Proof.
  unfold create_indexes.
  repeat (apply total_bind; [apply total_cursor_execute|intros _]).
  apply total_cursor_execute.
Qed.

(** After the customers loop nothing can diverge. *)
Lemma total_after_customers msg :
  total (populate_menu_items rnd ;; create_indexes ;; conn_commit ;;
         conn_close ;; print msg).
Proof.
  apply total_bind; [apply total_for_range, total_menu_item|intros _].
  apply total_bind; [apply total_create_indexes|intros _].
  intros s. unfold bind, conn_commit, conn_close, print. discriminate.
Qed.

Hypothesis fresh : eventually_fresh rnd.

(** With fuel enough the run ends, on any file. *)
Lemma run_terminates file :
  exists F, forall fuel, (F <= fuel)%nat -> run rnd fuel file <> Diverge.
Proof.
  destruct (drop_tables_spec file (State (connect file) ∅ 0 [] [])
              eq_refl eq_refl eq_refl eq_refl) as (s1 & Hd & _).
  destruct (create_tables s1) as [[] s2|e s2|] eqn:Hc.
  - destruct (populate_customers_terminates rnd fresh s2) as [F HF].
    exists F. intros fuel Hle. unfold run, main.
    rewrite (bind_returned _ _ _ _ _ Hd), (bind_returned _ _ _ _ _ Hc).
    unfold bind at 1. specialize (HF fuel Hle).
    destruct (populate_customers rnd fuel s2) as [a s3|x s3|];
      [apply total_after_customers|discriminate|contradiction].
  - exists 0%nat. intros fuel _. unfold run, main.
    rewrite (bind_returned _ _ _ _ _ Hd), (bind_raised _ _ _ _ _ Hc). discriminate.
  - exfalso. exact (total_create_tables s1 Hc).
Qed.

Hypothesis contract : lib_contract rnd.

(** Under the promises of the libraries, and with fuel enough, the run
    finishes, on any file. *)
Theorem run_completes file :
  exists F, forall fuel, (F <= fuel)%nat ->
    exists s, run rnd fuel file = Ok tt s /\ completed file s.
Proof.
  destruct (run_terminates file) as [F HF]. exists F. intros fuel Hle.
  specialize (HF fuel Hle). pose proof (run_spec rnd fuel file) as Hs.
  destruct (run rnd fuel file) as [[] s|e s|].
  - exists s. auto.
  - destruct Hs as [_ Hn]. contradiction.
  - contradiction.
Qed.

End RunEnds.

Lemma sample_contract : lib_contract sample_oracle.
Proof.
  split.
  - intros i. cbn [random_random sample_oracle].
    destruct (i mod 4 =? 3)%nat; split; discriminate || reflexivity.
  - intros n i Hn. cbn [randbelow sample_oracle]. apply Nat.mod_upper_bound. lia.
  - intros i. cbn [faker_email sample_oracle]. discriminate.
Qed.

(** An injective sequence leaves every finite set. *)
Lemma injective_escapes (f : nat -> string) (used : gset string) (i : nat) :
  (forall a b, f a = f b -> a = b) ->
  exists m, (i <= m)%nat /\ f m ∉ used.
Proof.
  intros Hinj.
  set (l := seq i (S (size used))).
  destruct (decide (Forall (fun m => f m ∈ used) l)) as [Hall|Hnot].
  - exfalso.
    assert (Hsub : list_to_set (f <$> l) ⊆ used).
    { intros x Hx. apply elem_of_list_to_set in Hx.
      apply list_elem_of_fmap in Hx as (m & -> & Hm).
      rewrite Forall_forall in Hall. apply Hall. exact Hm. }
    apply subseteq_size in Hsub.
    rewrite size_list_to_set in Hsub.
    + rewrite length_fmap in Hsub. unfold l in Hsub. rewrite length_seq in Hsub. lia.
    + apply NoDup_fmap_2_strong; [|apply NoDup_seq].
      intros a b _ _. apply Hinj.
  - apply not_Forall_Exists in Hnot; [|intros x; apply _].
    apply Exists_exists in Hnot as (m & Hm & Hf).
    exists m. split; [|exact Hf].
    apply elem_of_seq in Hm. lia.
Qed.

Lemma sample_fresh : eventually_fresh sample_oracle.
Proof.
  intros used i.
  destruct (injective_escapes (fun m => "mail@" ++ pretty m) used i) as (m & Hle & Hm).
  { intros a b H. simpl in H. injection H as H. apply pretty_nat_inj in H. exact H. }
  exists (16 * m - i)%nat.
  change (("mail@" ++ pretty ((i + (16 * m - i)) / 16)%nat) ∉ used).
  replace (i + (16 * m - i))%nat with (m * 16)%nat by lia.
  rewrite Nat.div_mul by discriminate. exact Hm.
Qed.

(** ** The model on small inputs *)

Example round_ties_to_even :
  (round (12345 # 1000) 2, round (12355 # 1000) 2, round (5 # 1) 2) =
  (1234 # 100, 1236 # 100, 500 # 100).
Proof. reflexivity. Qed.

Example join_ingredients :
  join ", " ["milk"; "coffee"; "sugar"] = "milk, coffee, sugar".
Proof. reflexivity. Qed.

(** Four rounds of the customers loop on the new tables: the second
    customer has no address, the third and the fourth have theirs after
    collisions with the first. *)
Example sample_four_customers :
  map (fun r => (cell "customer_id" r, cell "email" r, cell "loyalty_tier" r))
    (rows_after "Customers"
       ((create_tables ;; for_range 4 (customer sample_oracle 20))
          (State (connect empty_db) ∅ 0 [] []))) =
  [ (VInt 1, VText "mail@0", VText "Silver"); (VInt 2, VNull, VText "Silver");
    (VInt 3, VText "mail@1", VText "Silver"); (VInt 4, VText "mail@2", VText "Gold") ].
Proof. vm_compute. reflexivity. Qed.

(** The same with fuel for three rounds of the while loop only. *)
Example sample_fuel_runs_out :
  (create_tables ;; for_range 4 (customer sample_oracle 3))
    (State (connect empty_db) ∅ 0 [] []) = Diverge.
Proof. vm_compute. reflexivity. Qed.

Example sample_two_menu_items :
  rows_after "Menu_Items"
    ((create_tables ;; for_range 2 (menu_item sample_oracle))
       (State (connect empty_db) ∅ 0 [] [])) =
  [ menu_row 1 "Latte" "Beverage" (2750 # 100) ["milk"; "coffee"; "sugar"] 102
      "Out of Stock";
    menu_row 2 "Grilled Chicken" "Main Course" (2750 # 100)
      ["chicken breast"; "olive oil"; "garlic"] 106 "Out of Stock" ].
Proof. vm_compute. reflexivity. Qed.

(** Under [empty_mail_oracle] the first customer is stored with the empty
    address and the second is refused. *)
Example empty_mail_customers :
  rows_after "Customers" (run empty_mail_oracle 0 earlier_file) =
  [ customer_row 1 "Ann Lee" (Some "") "555-0100" "Bronze" "1 Main Street"
      "2024-01-01" ].
Proof. vm_compute. reflexivity. Qed.

(** ** What a run leaves behind *)

Lemma db_ok_rows file log d t :
  db_ok file log d -> In t tables_to_drop -> table_rows d t = rows_in t log.
Proof.
  intros [Hok _] Hin. specialize (Hok t Hin). unfold table_rows.
  destruct (tables d !! t) as [tb|]; simpl in Hok.
  - apply Hok.
  - symmetry. exact Hok.
Qed.

Lemma in_rows_in t r log : In r (rows_in t log) <-> In (t, r) log.
Proof.
  unfold rows_in. rewrite in_map_iff. split.
  - intros ([t' r'] & <- & Hin). apply filter_In in Hin as [Hin Heq].
    simpl in *. apply String.eqb_eq in Heq. subst t'. exact Hin.
  - intros Hin. exists (t, r). split; [reflexivity|].
    apply filter_In. split; [exact Hin|]. simpl. apply String.eqb_refl.
Qed.

Lemma rows_in_nil t log : (forall r, ~ In (t, r) log) -> rows_in t log = [].
Proof.
  intros H. destruct (rows_in t log) as [|r l] eqn:Hr; [reflexivity|].
  exfalso. apply (H r). apply in_rows_in. rewrite Hr. left. reflexivity.
Qed.


Section Ended.

Variable rnd : oracle.
Variable fuel : nat.
Variable file : database.

(** However the run ended, the working database agrees with the history,
  the history holds customers and well-formed menu items only, and the
  customers are as [customers_ok] says. *)
Lemma ended_working s :
ended (run rnd fuel file) s ->
db_ok file (inserted s) (working (conn s)) /\
(forall t r, In (t, r) (inserted s) ->
   t = "Customers" \/ (t = "Menu_Items" /\ menu_row_ok r)) /\
customers_ok (rows_in "Customers" (inserted s)) (generated_emails s).
Proof.
intros Hend. pose proof (run_spec rnd fuel file) as Hs.
destruct Hend as [Hr|[e Hr]]; rewrite Hr in Hs.
- destruct Hs as (Hd & _ & Htx & Hl & Hc & _).
  unfold working. rewrite Htx. auto.
- destruct Hs as ((Hinv & _) & _).
  split; [exact (inv_working _ _ Hinv)|].
  split; [exact (inv_log _ _ Hinv)|exact (inv_customers _ _ Hinv)].
Qed.



End Ended.

(** ** Referential integrity *)

(** [child_tables] are the tables created with a FOREIGN KEY clause. *)
Lemma child_tables_hold_fkeys t sch :
  In (t, sch) created_tables -> (s_fkeys sch <> [] <-> In t child_tables).
Proof.
  intros Hin. simpl in Hin.
  repeat (destruct Hin as [Hin|Hin];
          [injection Hin as <- <-; clear; split; intros H;
             [first [solve [in_list] | exfalso; apply H; reflexivity]
             |first [discriminate | exfalso; simpl in H; intuition discriminate]]|]).
  destruct Hin.
Qed.



(** ** E-mail addresses *)

(** C2: over the Customers and the Employees rows a run produced, the
    e-mail addresses that are not NULL are pairwise distinct. *)
Theorem emails_unique rnd fuel file s :
  ended (run rnd fuel file) s ->
  NoDup (emails_of (table_rows (working (conn s)) "Customers" ++
                    table_rows (working (conn s)) "Employees")).
Proof.
  intros Hend. destruct (ended_working rnd fuel file s Hend) as (Hd & Hl & Hc).
  rewrite (db_ok_rows file _ _ "Customers" Hd) by in_list.
  rewrite (db_ok_rows file _ _ "Employees" Hd) by in_list.
  rewrite (rows_in_nil "Employees").
  - rewrite app_nil_r. apply Hc.
  - intros r Hin. destruct (Hl _ _ Hin) as [H|[H _]]; discriminate.
Qed.

Lemma emails_unique_sample :
  exists fuel s,
    ended (run sample_oracle fuel empty_db) s /\
    NoDup (emails_of (table_rows (working (conn s)) "Customers" ++
                      table_rows (working (conn s)) "Employees")).
Proof.
  destruct (run_completes sample_oracle sample_fresh sample_contract empty_db)
    as [F HF].
  destruct (HF F (le_n F)) as (s & Hs & _).
  exists F, s. split; [left; exact Hs|].
  apply (emails_unique sample_oracle F empty_db s). left. exact Hs.
Defined.



(** ** Customers and orders *)

(** C4: a finished run leaves exactly 1500 rows in Customers, with
    identities 1 to 1500 in order, and every row of Orders has a
    [customer_id] between 1 and 1500 that is the identity of one of them
    (the run inserts no order: see [no_child_insert]). *)
Theorem customers_1500 rnd fuel file s :
  run rnd fuel file = Ok tt s ->
  (exists tb,
     tables (disk (conn s)) !! "Customers" = Some tb /\
     length (t_rows tb) = 1500%nat /\
     map (cell "customer_id") (t_rows tb) =
     map (fun i => VInt (Z.of_nat i)) (seq 1 1500)) /\
  (forall r, In r (table_rows (disk (conn s)) "Orders") ->
     exists c p,
       cell "customer_id" r = VInt c /\ 1 <= c <= 1500 /\
       In p (table_rows (disk (conn s)) "Customers") /\
       cell "customer_id" p = VInt c).
Proof.
  intros Hr. pose proof (run_spec rnd fuel file) as Hs. rewrite Hr in Hs.
  destruct Hs as (Hd & Hcr & _ & Hl & (_ & _ & Hid) & Hk & _).
  split.
  - destruct (Hcr "Customers" Customers_schema) as [tb Htb]; [in_list|].
    exists tb. split; [exact Htb|].
    pose proof (db_ok_rows file _ _ "Customers" Hd Customers_dropped) as Hrows.
    unfold table_rows in Hrows. rewrite Htb in Hrows. rewrite Hrows.
    unfold count in Hk. rewrite Hk in Hid. auto.
  - intros r Hin. exfalso.
    rewrite (db_ok_rows file _ _ "Orders" Hd) in Hin by in_list.
    apply in_rows_in in Hin. destruct (Hl _ _ Hin) as [H|[H _]]; discriminate.
Qed.

Lemma customers_1500_sample :
  exists fuel s,
    run sample_oracle fuel empty_db = Ok tt s /\
    (exists tb,
       tables (disk (conn s)) !! "Customers" = Some tb /\
       length (t_rows tb) = 1500%nat /\
       map (cell "customer_id") (t_rows tb) =
       map (fun i => VInt (Z.of_nat i)) (seq 1 1500)) /\
    (forall r, In r (table_rows (disk (conn s)) "Orders") ->
       exists c p,
         cell "customer_id" r = VInt c /\ 1 <= c <= 1500 /\
         In p (table_rows (disk (conn s)) "Customers") /\
         cell "customer_id" p = VInt c).
Proof.
  destruct (run_completes sample_oracle sample_fresh sample_contract empty_db)
    as [F HF].
  destruct (HF F (le_n F)) as (s & Hs & _).
  exists F, s. split; [exact Hs|].
  exact (customers_1500 sample_oracle F empty_db s Hs).
Defined.

(** ** Menu items *)

(** C5: every row the run inserts into Menu_Items has a price above zero
    and calories that are not negative; these rows are the rows of the
    table. *)
Theorem menu_items_price_calories rnd fuel file s :
  ended (run rnd fuel file) s ->
  table_rows (working (conn s)) "Menu_Items" = rows_in "Menu_Items" (inserted s) /\
  forall r, In ("Menu_Items", r) (inserted s) ->
    exists price cal,
      cell "price" r = VReal price /\ (0 < price)%Q /\
      cell "calories" r = VInt cal /\ 0 <= cal.
Proof.
  intros Hend. destruct (ended_working rnd fuel file s Hend) as (Hd & Hl & _).
  split; [apply (db_ok_rows file _ _ _ Hd Menu_Items_dropped)|].
  intros r Hin. destruct (Hl _ _ Hin) as [H|[_ Hok]]; [discriminate|].
  destruct Hok as (id & name & cat & ingr & price & cal & avail & -> & _ & Hp & Hc).
  exists price, cal. auto.
Qed.

Lemma menu_items_price_calories_sample :
  exists fuel s,
    ended (run sample_oracle fuel empty_db) s /\
    table_rows (working (conn s)) "Menu_Items" = rows_in "Menu_Items" (inserted s) /\
    forall r, In ("Menu_Items", r) (inserted s) ->
      exists price cal,
        cell "price" r = VReal price /\ (0 < price)%Q /\
        cell "calories" r = VInt cal /\ 0 <= cal.
Proof.
  destruct (run_completes sample_oracle sample_fresh sample_contract empty_db)
    as [F HF].
  destruct (HF F (le_n F)) as (s & Hs & _).
  exists F, s. split; [left; exact Hs|].
  apply (menu_items_price_calories sample_oracle F empty_db s). left. exact Hs.
Defined.

(** C9: the map has seven entries, and every row the run inserts into
    Menu_Items has its name, category and ingredients from one entry of it;
    so the category is one of the five the CHECK allows, and the name is
    neither 'chef_specials' nor 'signature_dishes'. *)
Theorem menu_items_from_map rnd fuel file s :
  ended (run rnd fuel file) s ->
  length item_category_map = 7%nat /\
  forall r, In ("Menu_Items", r) (inserted s) ->
    exists name cat ingr,
      In (name, (cat, ingr)) item_category_map /\
      cell "item_name" r = VText name /\
      cell "category" r = VText cat /\
      cell "ingredients" r = VText (join ", " ingr) /\
      In cat ["Appetizer"; "Main Course"; "Dessert"; "Beverage"; "Breakfast"] /\
      name <> "chef_specials" /\ name <> "signature_dishes".
Proof.
  intros Hend. destruct (ended_working rnd fuel file s Hend) as (_ & Hl & _).
  split; [reflexivity|].
  intros r Hin. destruct (Hl _ _ Hin) as [H|[_ Hok]]; [discriminate|].
  destruct Hok as (id & name & cat & ingr & price & cal & avail & -> & Hmap & _).
  exists name, cat, ingr. split; [exact Hmap|]. do 3 (split; [reflexivity|]).
  simpl in Hmap.
  repeat (destruct Hmap as [Hmap|Hmap];
          [injection Hmap as <- <- <-;
           split; [in_list|split; discriminate]|]).
  destruct Hmap.
Qed.

Lemma menu_items_from_map_sample :
  exists fuel s,
    ended (run sample_oracle fuel empty_db) s /\
    length item_category_map = 7%nat /\
    forall r, In ("Menu_Items", r) (inserted s) ->
      exists name cat ingr,
        In (name, (cat, ingr)) item_category_map /\
        cell "item_name" r = VText name /\
        cell "category" r = VText cat /\
        cell "ingredients" r = VText (join ", " ingr) /\
        In cat ["Appetizer"; "Main Course"; "Dessert"; "Beverage"; "Breakfast"] /\
        name <> "chef_specials" /\ name <> "signature_dishes".
Proof.
  destruct (run_completes sample_oracle sample_fresh sample_contract empty_db)
    as [F HF].
  destruct (HF F (le_n F)) as (s & Hs & _).
  exists F, s. split; [left; exact Hs|].
  apply (menu_items_from_map sample_oracle F empty_db s). left. exact Hs.
Defined.

(** ** Feedback *)



(** ** A run that stops on a constraint *)





(** ** Running on a file from an earlier run *)

(** C8: Step 1 cannot fail and leaves none of the eleven tables in the file,
    before any table is created; and after a finished run each of the eleven
    tables holds the rows this run inserted and no other: 1500 customers
    and 100 menu items, whatever the file held. *)
Theorem earlier_rows_discarded rnd fuel file s :
  run rnd fuel file = Ok tt s ->
  (exists s1,
     drop_tables (State (connect file) ∅ 0 [] []) = Ok tt s1 /\
     forall t, In t tables_to_drop -> tables (disk (conn s1)) !! t = None) /\
  (forall t, In t tables_to_drop ->
     table_rows (disk (conn s)) t = rows_in t (inserted s)) /\
  length (table_rows (disk (conn s)) "Customers") = 1500%nat /\
  length (table_rows (disk (conn s)) "Menu_Items") = 100%nat.
Proof.
  intros Hr. pose proof (run_spec rnd fuel file) as Hs. rewrite Hr in Hs.
  destruct Hs as (Hd & _ & _ & _ & _ & Hk & Hm & _).
  split; [|split; [|split]].
  - destruct (drop_tables_spec file (State (connect file) ∅ 0 [] [])
                eq_refl eq_refl eq_refl eq_refl) as (s1 & Hs1 & _ & Hdisk).
    exists s1. split; [exact Hs1|]. intros t Ht. rewrite Hdisk.
    apply dropped_gone. exact Ht.
  - intros t Ht. apply (db_ok_rows file _ _ t Hd Ht).
  - rewrite (db_ok_rows file _ _ _ Hd Customers_dropped). exact Hk.
  - rewrite (db_ok_rows file _ _ _ Hd Menu_Items_dropped). exact Hm.
Qed.

Lemma earlier_rows_discarded_sample :
  exists fuel s,
    run sample_oracle fuel earlier_file = Ok tt s /\
    (exists s1,
       drop_tables (State (connect earlier_file) ∅ 0 [] []) = Ok tt s1 /\
       forall t, In t tables_to_drop -> tables (disk (conn s1)) !! t = None) /\
    (forall t, In t tables_to_drop ->
       table_rows (disk (conn s)) t = rows_in t (inserted s)) /\
    length (table_rows (disk (conn s)) "Customers") = 1500%nat /\
    length (table_rows (disk (conn s)) "Menu_Items") = 100%nat.
Proof.
  destruct (run_completes sample_oracle sample_fresh sample_contract earlier_file)
    as [F HF].
  destruct (HF F (le_n F)) as (s & Hs & _).
  exists F, s. split; [exact Hs|].
  exact (earlier_rows_discarded sample_oracle F earlier_file s Hs).
Defined.

(** ** Termination of the customers loop *)

(** C10: when the e-mail generator eventually yields a string outside any
    finite set, the while loop ends, given fuel enough, with a string that
    is not in [generated_emails], and so does the loop of 1500 rounds. *)
Theorem customers_loop_terminates rnd (H : eventually_fresh rnd) :
  (forall e s, exists F, forall n, (F <= n)%nat ->
     exists e' s', regenerate rnd n e s = Ok e' s' /\ e' ∉ generated_emails s) /\
  (forall s, exists F, forall fuel, (F <= fuel)%nat ->
     populate_customers rnd fuel s <> Diverge).
Proof.
  split.
  - intros e s. destruct (regenerate_terminates rnd H e s) as [F HF].
    exists F. intros n Hn.
    destruct (regenerate_cases rnd n e s) as [Hd|(e' & s' & Hr & Hf & _)].
    + exfalso. exact (HF n Hn Hd).
    + exists e', s'. auto.
  - apply populate_customers_terminates. exact H.
Qed.

Lemma customers_loop_terminates_sample :
  eventually_fresh sample_oracle /\
  ((forall e s, exists F, forall n, (F <= n)%nat ->
      exists e' s',
        regenerate sample_oracle n e s = Ok e' s' /\ e' ∉ generated_emails s) /\
   (forall s, exists F, forall fuel, (F <= fuel)%nat ->
      populate_customers sample_oracle fuel s <> Diverge)).
Proof.
  split; [exact sample_fresh|].
  exact (customers_loop_terminates sample_oracle sample_fresh).
Defined.

(** * More of the script *)

(** ** The while loop *)

Section WhileLoop.

Variable rnd : oracle.


End WhileLoop.


(** X2: a round of the customers loop whose first draw is not below 0.1
    never ends, whatever the fuel, when its first candidate is not empty and
    that candidate and every later value of the generator are in
    [generated_emails]. *)
Theorem customer_never_ends rnd fuel s :
  Qltb (random_random rnd (draws s)) (1 # 10) = false ->
  faker_email rnd (S (draws s)) <> "" ->
  (forall k, faker_email rnd (S (draws s) + k) ∈ generated_emails s) ->
  customer rnd fuel s = Diverge.
Proof.
  intros Hq Hne Hall. unfold customer. rewrite bind_draw, Hq.
  rewrite bind_bind, bind_draw, bind_ret.
  cbn [draws].
  set (e := faker_email rnd (S (draws s))).
  assert (Htr : truthy (Some e) = true).
  { unfold e. simpl. destruct (faker_email rnd (S (draws s))); [contradiction|reflexivity]. }
  rewrite Htr, bind_bind. apply bind_diverge.
  apply regenerate_never_fresh; simpl.
  - specialize (Hall 0%nat). rewrite Nat.add_0_r in Hall. exact Hall.
  - intros k. specialize (Hall (S k)).
    replace (S (draws s) + S k)%nat with (S (S (draws s)) + k)%nat in Hall by lia.
    exact Hall.
Qed.

Lemma customer_never_ends_sample :
  Qltb (random_random stuck_oracle (draws (at_draw 0 ["one@example.org"]))) (1 # 10)
    = false /\
  faker_email stuck_oracle (S (draws (at_draw 0 ["one@example.org"]))) <> "" /\
  (forall k,
     faker_email stuck_oracle (S (draws (at_draw 0 ["one@example.org"])) + k)
       ∈ generated_emails (at_draw 0 ["one@example.org"])) /\
  customer stuck_oracle 1000 (at_draw 0 ["one@example.org"]) = Diverge.
Proof.
  assert (H1 : Qltb (random_random stuck_oracle
                       (draws (at_draw 0 ["one@example.org"]))) (1 # 10) = false)
    by reflexivity.
  assert (H2 : faker_email stuck_oracle
                 (S (draws (at_draw 0 ["one@example.org"]))) <> "")
    by discriminate.
  assert (H3 : forall k,
             faker_email stuck_oracle
               (S (draws (at_draw 0 ["one@example.org"])) + k)
               ∈ generated_emails (at_draw 0 ["one@example.org"])).
  { intros k. cbn [faker_email stuck_oracle generated_emails at_draw].
    apply elem_of_list_to_set. left. }
  split; [exact H1|]. split; [exact H2|]. split; [exact H3|].
  exact (customer_never_ends stuck_oracle 1000 (at_draw 0 ["one@example.org"])
           H1 H2 H3).
Defined.

(** ** One round of each loop *)

Section RoundEffects.

Variable rnd : oracle.
Variable fuel : nat.

(** A round of the customers loop up to the draw of the name: it diverges
    in the while loop, or settles on an address, none exactly when the first
    draw is below 0.1, with the connection and the history as they were. *)
Lemma customer_settles s :
  customer rnd fuel s = Diverge \/
  exists s2 email,
    customer rnd fuel s = customer_rest rnd email s2 /\
    conn s2 = conn s /\ inserted s2 = inserted s /\ stdout s2 = stdout s /\
    (email = None <-> Qltb (random_random rnd (draws s)) (1 # 10) = true) /\
    (forall e, email = Some e -> exists i, e = faker_email rnd i) /\
    tracks email (generated_emails s) (generated_emails s2).
Proof.
  unfold customer. rewrite bind_draw.
  set (s0 := State _ _ _ _ _).
  destruct (Qltb (random_random rnd (draws s)) (1 # 10)) eqn:Hq.
  - rewrite bind_ret, bind_ret. right. exists s0, None.
    split; [reflexivity|]. do 3 (split; [reflexivity|]).
    split; [tauto|]. split; [discriminate|reflexivity].
  - rewrite bind_bind, bind_draw, bind_ret.
    set (s0' := State _ _ _ _ _).
    set (e := faker_email rnd (draws s0)).
    destruct (truthy (Some e)) eqn:Htr.
    + rewrite bind_bind.
      destruct (regenerate_cases rnd fuel e s0')
        as [Hd|(e' & s' & Hr & Hf & He & Hc & Hi & Ho & Hg)].
      { left. apply bind_diverge. exact Hd. }
      rewrite (bind_returned _ _ _ _ _ Hr).
      rewrite bind_bind.
      change (bind (generated_emails_add e') ?k s') with
        (k tt (State (conn s') ({[e']} ∪ generated_emails s') (draws s')
                 (inserted s') (stdout s'))).
      cbv beta. rewrite bind_ret.
      set (s2 := State _ _ _ _ _).
      right. exists s2, (Some e'). split; [reflexivity|].
      split; [exact Hc|]. split; [exact Hi|]. split; [exact Ho|].
      split; [split; discriminate|]. split.
      * intros x Hx. injection Hx as <-.
        destruct He as [->|He]; [eexists; reflexivity|exact He].
      * right. split; [exact Hf|]. simpl. rewrite Hg. reflexivity.
    + rewrite bind_ret. right. exists s0', (Some e). split; [reflexivity|].
      do 3 (split; [reflexivity|]).
      split; [split; discriminate|]. split.
      * intros x Hx. injection Hx as <-. eexists; reflexivity.
      * left. split; [|reflexivity].
        simpl in Htr. destruct e; [reflexivity|discriminate].
Qed.

(** A round of the customers loop on a Customers table of the script's
    schema: short of divergence it stops on an IndexError or an
    IntegrityError with nothing stored, or it stores one row, under the next
    identity, at the end of the table. *)
Lemma customer_effect s tb :
  tables (working (conn s)) !! "Customers" = Some tb ->
  t_schema tb = Customers_schema ->
  match customer rnd fuel s with
  | Diverge => True
  | Raise e s' =>
      ((e = IndexError /\ exists i, ~ (randbelow rnd 3 i < 3)%nat) \/
       (e = IntegrityError /\
        exists a, (exists i, a = faker_email rnd i) /\
                  In a (emails_of (t_rows tb)) /\
                  (a = "" \/ a ∉ generated_emails s))) /\
      working (conn s') = working (conn s) /\ disk (conn s') = disk (conn s) /\
      inserted s' = inserted s /\ stdout s' = stdout s
  | Ok _ s' =>
      exists name email phone tier address date,
        In tier ["Bronze"; "Silver"; "Gold"] /\
        (email = None <-> Qltb (random_random rnd (draws s)) (1 # 10) = true) /\
        (forall e, email = Some e ->
           (exists i, e = faker_email rnd i) /\ ~ In e (emails_of (t_rows tb))) /\
        tracks email (generated_emails s) (generated_emails s') /\
        working (conn s') =
          Database
            (<["Customers" :=
                 Table Customers_schema (t_seq tb + 1)
                   (t_rows tb ++
                    [customer_row (t_seq tb + 1) name email phone tier address date])]>
               (tables (working (conn s))))
            (indexes (working (conn s))) /\
        disk (conn s') = disk (conn s) /\ txn (conn s') <> None /\
        inserted s' =
          (inserted s ++
           [("Customers",
             customer_row (t_seq tb + 1) name email phone tier address date)])%list /\
        stdout s' = stdout s
  end.
Proof.
  intros Htb Hsch.
  destruct (customer_settles s)
    as [->|(s2 & email & -> & Hc & Hi & Ho & Hnull & Hgen & Htr)]; [exact I|].
  destruct (customer_tail rnd s2 email)
    as [[Hr Hbad]|(name & phone & tier & address & date & Htier & Hr)];
    cbv zeta in Hr; unfold customer_rest; rewrite Hr.
  - simpl. rewrite Hc, Hi, Ho. auto 10.
  - rewrite <- Hc in Htb.
    pose proof (insert_customer (working (conn (later 5 s2))) tb name email phone
                  tier address date Htb Hsch Htier) as Hins.
    cbv zeta in Hins.
    set (r := customer_row (t_seq tb + 1) name email phone tier address date) in *.
    destruct (unique_ok "email" (t_rows tb) r) eqn:Hu.
    + destruct (cursor_execute _ (later 5 s2)) as [[] s'|e s'|] eqn:Hce.
      * apply cursor_execute_ok in Hce as (r0 & Hrun & Hdisk & Hlog & Hg & _ & Hout).
        cbn [run_stmt customer_insert] in Hrun. rewrite Hins in Hrun.
        injection Hrun as <- Hw. cbn [customer_insert] in Hlog.
        destruct Hdisk as [Hdisk _].
        destruct Hdisk as [Hdisk Htx]; [left; reflexivity|].
        exists name, email, phone, tier, address, date.
        split; [exact Htier|]. split; [exact Hnull|]. split.
        { intros e He. split; [exact (Hgen e He)|].
          subst email. apply (unique_email_spec (t_rows tb) r e eq_refl). exact Hu. }
        split; [rewrite Hg; exact Htr|].
        split; [rewrite <- Hw; simpl; rewrite Hc; reflexivity|].
        split; [rewrite Hdisk; simpl; rewrite Hc; reflexivity|].
        split; [exact Htx|].
        split; [rewrite Hlog; simpl; rewrite Hi; reflexivity|].
        rewrite Hout. simpl. exact Ho.
      * apply cursor_execute_raise in Hce as (Hrun & _).
        cbn [run_stmt customer_insert] in Hrun. rewrite Hins in Hrun. discriminate.
      * exact I.
    + destruct (cursor_execute _ (later 5 s2)) as [[] s'|x s'|] eqn:Hce.
      * apply cursor_execute_ok in Hce as (r0 & Hrun & _).
        cbn [run_stmt customer_insert] in Hrun. rewrite Hins in Hrun. discriminate.
      * apply cursor_execute_raise in Hce as (Hrun & Hw & Hdisk & Hlog & _ & _ & Hout).
        cbn [run_stmt customer_insert] in Hrun. rewrite Hins in Hrun.
        injection Hrun as <-.
        split; [|rewrite Hw, Hdisk, Hlog, Hout; simpl; rewrite Hc, Hi, Ho; auto].
        right. split; [reflexivity|].
        destruct email as [a|]; [|discriminate Hu].
        exists a. split; [exact (Hgen a eq_refl)|]. split.
        { destruct (in_dec string_dec a (emails_of (t_rows tb))) as [Hin|Hnin];
            [exact Hin|].
          apply (unique_email_spec (t_rows tb) r a eq_refl) in Hnin. congruence. }
        destruct Htr as [[Ha _]|[Ha _]]; auto.
      * exact I.
Qed.

(** A round of the menu-items loop up to its INSERT: the name is drawn
    first, the price from the second draw and the calories from the third;
    a list index out of range stops it. *)
Lemma menu_item_settles s :
  exists s1,
    conn s1 = conn s /\ inserted s1 = inserted s /\ stdout s1 = stdout s /\
    generated_emails s1 = generated_emails s /\
    ((menu_item rnd s = Raise IndexError s1 /\
      exists n i, (0 < n)%nat /\ ~ (randbelow rnd n i < n)%nat) \/
     exists name cat ingr avail,
       In (name, (cat, ingr)) item_category_map /\
       In avail ["Available"; "Out of Stock"] /\
       menu_item rnd s =
         cursor_execute
           (menu_insert name cat
              (round (5 + (50 - 5) * random_random rnd (S (draws s))) 2) ingr
              (100 + Z.of_nat (randbelow rnd 901 (S (S (draws s))))) avail) s1).
Proof.
  unfold menu_item, random_choice. rewrite bind_bind, bind_draw.
  set (s0 := State _ _ _ _ _).
  destruct (nth_error (keys item_category_map) _) as [name|] eqn:Hn.
  - rewrite bind_ret.
    destruct (dict_get_keys item_category_map name) as ([cat ingr] & -> & Hin).
    { eapply nth_error_In. exact Hn. }
    rewrite bind_ret. unfold random_uniform, random_randint.
    rewrite bind_bind, bind_draw, bind_ret, bind_bind, bind_draw, bind_ret,
      bind_bind, bind_draw.
    cbn [conn generated_emails draws inserted stdout fst snd].
    destruct (nth_error ["Available"; "Out of Stock"] _) as [avail|] eqn:Ha.
    + rewrite bind_ret. exists (later 4 s). split; [reflexivity|].
      do 3 (split; [reflexivity|]).
      right. exists name, cat, ingr, avail. split; [exact Hin|].
      split; [|reflexivity]. eapply nth_error_In. exact Ha.
    + exists (later 4 s). split; [reflexivity|].
      do 3 (split; [reflexivity|]). left. split; [reflexivity|].
      apply nth_error_None in Ha. eexists _, _. split; [|intros Hlt].
      2:{ eapply Nat.lt_irrefl, Nat.lt_le_trans; [exact Hlt|exact Ha]. }
      simpl. lia.
  - exists (later 1 s). split; [reflexivity|].
    do 3 (split; [reflexivity|]). left. split; [reflexivity|].
    apply nth_error_None in Hn. eexists _, _. split; [|intros Hlt].
    2:{ eapply Nat.lt_irrefl, Nat.lt_le_trans; [exact Hlt|exact Hn]. }
    simpl. lia.
Qed.

(** A round of the menu-items loop on a Menu_Items table of the script's
    schema: it stops on an IndexError or an IntegrityError with nothing
    stored, or it stores one row, under the next identity, at the end of the
    table; it never diverges. *)
Lemma menu_item_effect s tb :
  tables (working (conn s)) !! "Menu_Items" = Some tb ->
  t_schema tb = Menu_Items_schema ->
  match menu_item rnd s with
  | Diverge => False
  | Raise e s' =>
      ((e = IndexError /\
        exists n i, (0 < n)%nat /\ ~ (randbelow rnd n i < n)%nat) \/
       (e = IntegrityError /\
        ~ (0 < round (5 + (50 - 5) * random_random rnd (S (draws s))) 2)%Q)) /\
      working (conn s') = working (conn s) /\ disk (conn s') = disk (conn s) /\
      inserted s' = inserted s /\ stdout s' = stdout s
  | Ok _ s' =>
      exists name cat ingr avail,
        let r :=
          menu_row (t_seq tb + 1) name cat
            (round (5 + (50 - 5) * random_random rnd (S (draws s))) 2) ingr
            (100 + Z.of_nat (randbelow rnd 901 (S (S (draws s))))) avail in
        In (name, (cat, ingr)) item_category_map /\
        In avail ["Available"; "Out of Stock"] /\
        working (conn s') =
          Database
            (<["Menu_Items" :=
                 Table Menu_Items_schema (t_seq tb + 1) (t_rows tb ++ [r])]>
               (tables (working (conn s))))
            (indexes (working (conn s))) /\
        disk (conn s') = disk (conn s) /\ txn (conn s') <> None /\
        inserted s' = (inserted s ++ [("Menu_Items", r)])%list /\
        generated_emails s' = generated_emails s /\ stdout s' = stdout s
  end.
Proof.
  intros Htb Hsch.
  destruct (menu_item_settles s) as (s1 & Hc & Hi & Ho & Hg1 & Hres).
  destruct Hres as [[-> Hbad]|(name & cat & ingr & avail & Hmap & Hav & ->)].
  - rewrite Hc, Hi, Ho. auto 10.
  - rewrite <- Hc in Htb.
    set (price := round (5 + (50 - 5) * random_random rnd (S (draws s))) 2).
    set (cal := 100 + Z.of_nat (randbelow rnd 901 (S (S (draws s))))).
    pose proof (insert_menu_item (working (conn s1)) tb name cat ingr price cal
                  avail Htb Hsch Hmap Hav) as Hins.
    cbv zeta in Hins.
    set (r := menu_row (t_seq tb + 1) name cat price ingr cal avail) in *.
    destruct (Qltb 0 price && (0 <=? cal)) eqn:Hck.
    + destruct (cursor_execute _ s1) as [[] s'|e s'|] eqn:Hce.
      * apply cursor_execute_ok in Hce as (r0 & Hrun & Hdisk & Hlog & Hg & _ & Hout).
        cbn [run_stmt menu_insert] in Hrun. rewrite Hins in Hrun.
        injection Hrun as <- Hw. cbn [menu_insert] in Hlog.
        destruct Hdisk as [Hdisk _].
        destruct Hdisk as [Hdisk Htx]; [left; reflexivity|].
        exists name, cat, ingr, avail. cbv zeta. fold price cal r.
        split; [exact Hmap|]. split; [exact Hav|].
        split; [rewrite <- Hw, Hc; reflexivity|].
        split; [rewrite Hdisk, Hc; reflexivity|].
        split; [exact Htx|].
        split; [rewrite Hlog, Hi; reflexivity|].
        split; [rewrite Hg; exact Hg1|]. rewrite Hout. exact Ho.
      * apply cursor_execute_raise in Hce as (Hrun & _).
        cbn [run_stmt menu_insert] in Hrun. rewrite Hins in Hrun. discriminate.
      * exact (cursor_execute_converges _ _ Hce).
    + destruct (cursor_execute _ s1) as [[] s'|x s'|] eqn:Hce.
      * apply cursor_execute_ok in Hce as (r0 & Hrun & _).
        cbn [run_stmt menu_insert] in Hrun. rewrite Hins in Hrun. discriminate.
      * apply cursor_execute_raise in Hce as (Hrun & Hw & Hdisk & Hlog & _ & _ & Hout).
        cbn [run_stmt menu_insert] in Hrun. rewrite Hins in Hrun.
        injection Hrun as <-.
        split; [|rewrite Hw, Hdisk, Hlog, Hout, Hc, Hi, Ho; auto].
        right. split; [reflexivity|]. intros Hpos.
        apply Qltb_lt in Hpos. fold price in Hpos. rewrite Hpos in Hck.
        assert (Hcal : (0 <=? cal) = true) by (apply Z.leb_le; unfold cal; lia).
        rewrite Hcal in Hck. discriminate Hck.
      * exact (cursor_execute_converges _ _ Hce).
Qed.

End RoundEffects.

(** ** The history of a run, and its indexes *)

Lemma hoare_and {A} (m : M A) (P P' : state -> Prop) (Q Q' : A -> state -> Prop)
  (E E' : exn -> state -> Prop) :
  hoare P m Q E -> hoare P' m Q' E' ->
  hoare (fun s => P s /\ P' s) m (fun a s => Q a s /\ Q' a s)
    (fun e s => E e s /\ E' e s).
Proof.
  intros H H' s [Hs Hs']. specialize (H s Hs). specialize (H' s Hs').
  destruct (m s); auto.
Qed.

Lemma drawn_nil rnd : drawn rnd [].
Proof. constructor; simpl; try reflexivity; intros r []. Qed.

Lemma seq_snoc (n : nat) : seq 1 (S n) = (seq 1 n ++ [S n])%list.
Proof. rewrite seq_S. reflexivity. Qed.

Lemma drawn_customer rnd log r :
  drawn rnd log -> rows_in "Menu_Items" log = [] -> customer_drawn rnd r ->
  drawn rnd (log ++ [("Customers", r)]).
Proof.
  intros [Hc Hm Ho Hi] Hnil Hr.
  constructor; rewrite ?rows_in_snoc_eq, ?(rows_in_snoc_ne "Menu_Items") by discriminate.
  - intros r' Hin. apply in_app_or in Hin as [Hin|[<-|[]]]; auto.
  - exact Hm.
  - rewrite Hnil in *. simpl in *. rewrite app_nil_r in *.
    rewrite map_app. simpl. rewrite <- Ho. reflexivity.
  - exact Hi.
Qed.

Lemma drawn_menu_item rnd log r :
  drawn rnd log -> menu_item_drawn rnd r ->
  cell "item_id" r = VInt (Z.of_nat (S (length (rows_in "Menu_Items" log)))) ->
  drawn rnd (log ++ [("Menu_Items", r)]).
Proof.
  intros [Hc Hm Ho Hi] Hr Hid.
  constructor; rewrite ?rows_in_snoc_eq, ?(rows_in_snoc_ne "Customers") by discriminate.
  - exact Hc.
  - intros r' Hin. apply in_app_or in Hin as [Hin|[<-|[]]]; auto.
  - rewrite map_app, app_assoc, <- Ho. reflexivity.
  - rewrite map_app, length_app, Hi. simpl. rewrite Nat.add_1_r, seq_snoc, map_app.
    simpl. rewrite Hid. reflexivity.
Qed.

Section Shape.

Variable rnd : oracle.
Variable fuel : nat.
Variable file : database.

(** A round of the customers loop, while no menu item is stored, keeps the
    history as [drawn] says and [generated_emails] within the stored
    addresses, and leaves the indexes alone; it raises nothing but an
    IndexError or an IntegrityError. *)
Lemma customer_shape ix :
  hoare (fun s => populating file s /\ count "Menu_Items" s = 0%nat /\
                  drawn rnd (inserted s) /\ tracked s /\
                  indexes (working (conn s)) = ix /\ indexes (disk (conn s)) = ix)
    (customer rnd fuel)
    (fun _ s => drawn rnd (inserted s) /\ tracked s /\
                indexes (working (conn s)) = ix /\ indexes (disk (conn s)) = ix)
    (fun e s => broken_promise rnd e /\ drawn rnd (inserted s) /\
                indexes (working (conn s)) = ix /\ indexes (disk (conn s)) = ix /\
                count "Menu_Items" s = 0%nat).
Proof.
  intros s ((Hinv & Hcw & Hcd) & Hm & Hdr & Htr & Hiw & Hid).
  destruct (Hcw "Customers" Customers_schema) as [tb Htb]; [in_list|].
  destruct (inv_working _ _ Hinv) as [Hok _].
  specialize (Hok "Customers" Customers_dropped). rewrite Htb in Hok.
  destruct Hok as (Hs & Hrows & Hseq). cbn in Hs. injection Hs as Hs.
  pose proof (customer_effect rnd fuel s tb Htb (eq_sym Hs)) as Heff.
  destruct (customer rnd fuel s) as [[] s'|e s'|]; [| |exact I].
  - destruct Heff as (name & email & phone & tier & address & date & Htier & _ &
                      Hgen & Htrk & Hw & Hd & _ & Hlog & _).
    set (r := customer_row (t_seq tb + 1) name email phone tier address date) in *.
    split; [|split; [|split]].
    + rewrite Hlog. apply drawn_customer; [exact Hdr| |].
      * unfold count in Hm. apply length_zero_iff_nil. exact Hm.
      * exists (t_seq tb + 1), name, email, phone, tier, address, date.
        split; [reflexivity|]. split; [exact Htier|].
        intros e He. exact (proj1 (Hgen e He)).
    + intros e He. rewrite Hlog, rows_in_snoc_eq, emails_of_snoc.
      apply in_or_app. unfold tracks in Htrk.
      destruct email as [e0|].
      * destruct Htrk as [[_ Heq]|[_ Heq]]; rewrite Heq in He.
        -- left. apply Htr. exact He.
        -- apply elem_of_union in He as [He|He].
           ++ apply elem_of_singleton in He. subst e. right. left. reflexivity.
           ++ left. apply Htr. exact He.
      * rewrite Htrk in He. left. apply Htr. exact He.
    + rewrite Hw. exact Hiw.
    + rewrite Hd. exact Hid.
  - destruct Heff as (He & Hw & Hd & Hlog & _).
    split; [|unfold count; rewrite Hlog, Hw, Hd; auto].
    destruct He as [[-> [i Hi]]|[-> (a & [i Ha] & Hin & Hor)]].
    + exists 3%nat, i. split; [lia|exact Hi].
    + left. exists i. rewrite <- Ha.
      destruct Hor as [Hor|Hor]; [exact Hor|].
      destruct (string_dec a "") as [Hemp|Hne]; [exact Hemp|].
      exfalso. apply Hor. destruct (inv_customers _ _ Hinv) as (_ & Hgen & _).
      apply Hgen; [|exact Hne]. rewrite <- Hrows. exact Hin.
Qed.

(** The same for a round of the menu-items loop. *)
Lemma menu_item_shape ix k :
  hoare (fun s => populating file s /\ count "Customers" s = k /\
                  drawn rnd (inserted s) /\ tracked s /\
                  indexes (working (conn s)) = ix /\ indexes (disk (conn s)) = ix)
    (menu_item rnd)
    (fun _ s => drawn rnd (inserted s) /\ tracked s /\
                indexes (working (conn s)) = ix /\ indexes (disk (conn s)) = ix)
    (fun e s => broken_promise rnd e /\ drawn rnd (inserted s) /\
                indexes (working (conn s)) = ix /\ indexes (disk (conn s)) = ix /\
                count "Customers" s = k).
Proof.
  intros s ((Hinv & Hcw & Hcd) & Hk & Hdr & Htr & Hiw & Hid).
  destruct (Hcw "Menu_Items" Menu_Items_schema) as [tb Htb]; [in_list|].
  destruct (inv_working _ _ Hinv) as [Hok _].
  specialize (Hok "Menu_Items" Menu_Items_dropped). rewrite Htb in Hok.
  destruct Hok as (Hs & Hrows & Hseq). cbn in Hs. injection Hs as Hs.
  pose proof (menu_item_effect rnd s tb Htb (eq_sym Hs)) as Heff.
  destruct (menu_item rnd s) as [[] s'|e s'|]; [| |exact I].
  - destruct Heff as (name & cat & ingr & avail & Hmap & Hav & Hw & Hd & _ &
                      Hlog & Hg & _).
    split; [|split; [|split]].
    + rewrite Hlog. apply drawn_menu_item; [exact Hdr| |].
      * exists (t_seq tb + 1), name, cat, ingr, avail, (S (draws s)),
          (S (S (draws s))).
        split; [reflexivity|]. split; [exact Hmap|exact Hav].
      * rewrite <- Hrows, Hseq. cbn. f_equal. lia.
    + intros e He. rewrite Hlog, rows_in_snoc_ne by discriminate.
      apply Htr. rewrite <- Hg. exact He.
    + rewrite Hw. exact Hiw.
    + rewrite Hd. exact Hid.
  - destruct Heff as (He & Hw & Hd & Hlog & _).
    split; [|unfold count in *; rewrite Hlog, Hw, Hd; auto].
    destruct He as [[-> Hbad]|[-> Hbad]].
    + exact Hbad.
    + right. eexists. exact Hbad.
Qed.

(** CREATE TABLE leaves the indexes alone. *)
Lemma create_track t sch ix :
  hoare (fun s => txn (conn s) = None /\ indexes (disk (conn s)) = ix)
    (cursor_execute (CreateTableIfNotExists t sch))
    (fun _ s => txn (conn s) = None /\ indexes (disk (conn s)) = ix)
    (fun _ _ => True).
Proof.
  intros s [Htx Hix].
  destruct (cursor_execute _ s) as [[] s'|e s'|] eqn:Hce; [|exact I|exact I].
  apply cursor_execute_ok in Hce as (r & Hrun & [_ Hdisk] & _).
  destruct (Hdisk eq_refl Htx) as [Htx' Hd].
  split; [exact Htx'|]. rewrite Hd.
  cbn [run_stmt] in Hrun. injection Hrun as _ <-.
  unfold working. rewrite Htx. unfold create_table_if_not_exists.
  destruct (tables (disk (conn s)) !! t); exact Hix.
Qed.

Lemma create_tables_track ix :
  hoare (fun s => txn (conn s) = None /\ indexes (disk (conn s)) = ix)
    create_tables
    (fun _ s => txn (conn s) = None /\ indexes (disk (conn s)) = ix)
    (fun _ _ => True).
Proof.
  unfold create_tables.
  repeat (eapply hoare_bind; [apply create_track|intros ?; cbv beta]).
  apply create_track.
Qed.

(** CREATE INDEX IF NOT EXISTS on a table of the script adds the index
    unless its name is taken. *)
Lemma index_track i t c sch ix :
  In (t, sch) created_tables ->
  hoare (fun s => created_in (working (conn s)) /\
                  indexes (working (conn s)) = ix)
    (cursor_execute (CreateIndexIfNotExists i t c))
    (fun _ s => created_in (working (conn s)) /\
                indexes (working (conn s)) = add_index i (t, c) ix)
    (fun _ _ => True).
Proof.
  intros Hin s [Hcw Hix].
  destruct (cursor_execute _ s) as [[] s'|e s'|] eqn:Hce; [|exact I|exact I].
  apply cursor_execute_ok in Hce as (r & Hrun & _).
  cbn [run_stmt] in Hrun.
  destruct (create_index_if_not_exists i t c (working (conn s))) as [|d'] eqn:Hci;
    [discriminate|].
  injection Hrun as _ <-.
  split.
  - eapply created_in_tables; [|exact Hcw]. eapply create_index_tables. exact Hci.
  - unfold create_index_if_not_exists in Hci. unfold add_index. rewrite <- Hix.
    destruct (indexes (working (conn s)) !! i).
    + injection Hci as <-. reflexivity.
    + destruct (tables (working (conn s)) !! t); [|discriminate].
      injection Hci as <-. reflexivity.
Qed.

Lemma create_indexes_track ix :
  hoare (fun s => created_in (working (conn s)) /\
                  indexes (working (conn s)) = ix)
    create_indexes
    (fun _ s => created_in (working (conn s)) /\
                indexes (working (conn s)) = with_indexes ix)
    (fun _ _ => True).
Proof.
  unfold create_indexes, with_indexes, script_indexes. cbn [fold_left fst snd].
  repeat (eapply hoare_bind;
          [eapply index_track; in_list|intros ?; cbv beta]).
  eapply index_track. in_list.
Qed.

(** The run, whatever the oracle and the initial file: the history is as
    [drawn] says; a finished run has tracked stored addresses only and
    leaves the indexes of the file after Step 1 with those of the script
    added; a run that stops has raised an IndexError or an IntegrityError
    and has created no index. *)
Lemma run_shape :
  match run rnd fuel file with
  | Ok _ s =>
      drawn rnd (inserted s) /\ tracked s /\
      indexes (disk (conn s)) = with_indexes (indexes (dropped file))
  | Raise e s =>
      broken_promise rnd e /\ drawn rnd (inserted s) /\
      indexes (working (conn s)) = indexes (dropped file) /\
      indexes (disk (conn s)) = indexes (dropped file) /\
      (count "Menu_Items" s = 0%nat \/ count "Customers" s = 1500%nat)
  | Diverge => True
  end.
Proof.
  unfold run, main.
  destruct (drop_tables_spec file (State (connect file) ∅ 0 [] [])
              eq_refl eq_refl eq_refl eq_refl) as (s1 & Hd & Hcr & Hdisk).
  rewrite (bind_returned _ _ _ _ _ Hd).
  assert (Hix : indexes (disk (conn s1)) = indexes (dropped file))
    by (rewrite Hdisk; reflexivity).
  clear Hd Hdisk. revert s1 Hcr Hix.
  set (ix := indexes (dropped file)).
  set (Q := fun (_ : unit) s =>
              drawn rnd (inserted s) /\ tracked s /\
              indexes (disk (conn s)) = with_indexes ix).
  set (E := fun e s =>
              broken_promise rnd e /\ drawn rnd (inserted s) /\
              indexes (working (conn s)) = ix /\ indexes (disk (conn s)) = ix /\
              (count "Menu_Items" s = 0%nat \/ count "Customers" s = 1500%nat)).
  set (L := fun s => drawn rnd (inserted s) /\ tracked s /\
                     indexes (working (conn s)) = ix /\
                     indexes (disk (conn s)) = ix).
  enough (H : hoare (fun s => creating file [] s /\
                              txn (conn s) = None /\ indexes (disk (conn s)) = ix)
                (create_tables ;; populate_customers rnd fuel ;;
                 populate_menu_items rnd ;; create_indexes ;; conn_commit ;;
                 conn_close ;;
                 print "Database with 10 tables and realistic data created successfully!")
                Q E).
  { intros s1 Hcr Hix. apply (H s1). split; [exact Hcr|].
    split; [exact (proj1 (proj2 Hcr))|exact Hix]. }
  eapply hoare_bind.
  { eapply hoare_conseq;
      [exact (hoare_and _ _ _ _ _ _ _ (create_tables_spec file)
                (create_tables_track ix))| | |].
    - intros s H. exact H.
    - intros ? s H. exact H.
    - intros e s [[] _]. }
  intros ?. cbv beta.
  eapply hoare_bind.
  { unfold populate_customers. eapply hoare_conseq.
    - apply (hoare_for_range
               (fun i s => (populating file s /\ count "Customers" s = i /\
                            count "Menu_Items" s = 0%nat) /\ L s)
               E (customer rnd fuel) 1500 0).
      intros i. eapply hoare_conseq;
        [exact (hoare_and _ _ _ _ _ _ _ (customer_step rnd fuel file i 0)
                  (customer_shape ix))| | |].
      + intros s [(Hp & Hk & Hm) HL]. split; [auto|]. split; [exact Hp|].
        split; [exact Hm|exact HL].
      + intros ? s H. exact H.
      + intros e s [_ (Hb & Hdr & Hiw & Hid & Hm)]. unfold E. auto 10.
    - intros s ((Hp & _ & Hlog & Hgen) & Htx & Hi).
      unfold count, L, tracked. rewrite Hlog, Hgen.
      split; [auto|]. split; [apply drawn_nil|].
      split; [intros e He; apply elem_of_empty in He; destruct He|].
      split; [|exact Hi]. unfold working. rewrite Htx. exact Hi.
    - intros ? s H. exact H.
    - auto. }
  intros ?. cbv beta.
  eapply hoare_bind.
  { unfold populate_menu_items. eapply hoare_conseq.
    - apply (hoare_for_range
               (fun j s => (populating file s /\ count "Customers" s = 1500%nat /\
                            count "Menu_Items" s = j) /\ L s)
               E (menu_item rnd) 100 0).
      intros j. eapply hoare_conseq;
        [exact (hoare_and _ _ _ _ _ _ _ (menu_item_step rnd file 1500 j)
                  (menu_item_shape ix 1500))| | |].
      + intros s [(Hp & Hk & Hm) HL]. split; [auto|]. split; [exact Hp|].
        split; [exact Hk|exact HL].
      + intros ? s H. exact H.
      + intros e s [_ (Hb & Hdr & Hiw & Hid & Hk)]. unfold E. auto 10.
    - intros s H. exact H.
    - intros ? s H. exact H.
    - auto. }
  intros ?. cbv beta.
  assert (HP : forall s s',
             drawn rnd (inserted s) /\ tracked s ->
             inserted s' = inserted s -> stdout s' = stdout s ->
             generated_emails s' = generated_emails s ->
             drawn rnd (inserted s') /\ tracked s').
  { unfold tracked. intros s s' [Hdr Htr] Hlog _ Hgen. rewrite Hlog, Hgen. auto. }
  eapply hoare_bind.
  { eapply hoare_conseq;
      [exact (hoare_and _ _ _ _ _ _ _
                (create_indexes_spec file
                   (fun s => drawn rnd (inserted s) /\ tracked s) HP)
                (create_indexes_track ix))| | |].
    - intros s [(Hp & _) (Hdr & Htr & Hiw & _)].
      split; [split; [exact Hp|split; [exact Hdr|exact Htr]]|].
      split; [exact (proj1 (proj2 Hp))|exact Hiw].
    - intros ? s H. exact H.
    - intros e s [[] _]. }
  intros ?. cbv beta.
  intros s ((_ & Hdr & Htr) & _ & Hiw).
  unfold bind, conn_commit, conn_close, print, commit, close, Q. simpl.
  split; [exact Hdr|]. split; [exact Htr|exact Hiw].
Qed.

End Shape.

(** ** Indexes through Step 1 and Step 4 *)





(** ** Prices *)

Lemma round_half_even_upper (y : Q) (k : Z) :
  (y <= inject_Z k)%Q -> round_half_even y <= k.
Proof.
  unfold Qle, round_half_even. simpl. intros H.
  pose proof (Z.div_mod (Qnum y) (Z.pos (Qden y)) ltac:(lia)) as Hdm.
  pose proof (Z.mod_pos_bound (Qnum y) (Z.pos (Qden y)) ltac:(lia)) as Hb.
  set (f := Qnum y / Z.pos (Qden y)) in *.
  set (m := Qnum y mod Z.pos (Qden y)) in *.
  assert (Hf : f <= k) by nia.
  assert (Hm : 0 < m -> f + 1 <= k) by nia.
  destruct (Z.compare_spec (2 * m) (Z.pos (Qden y))) as [He|Hl|Hg].
  - destruct (Z.even f); [exact Hf|]. apply Hm. lia.
  - exact Hf.
  - apply Hm. lia.
Qed.

(** round(uniform(5, 50), 2) for random() in [0, 1): a number of cents
    between 500 and 5000. *)
Lemma price_in_range (r : Q) :
  (0 <= r)%Q -> (r < 1)%Q ->
  exists cents, round (5 + (50 - 5) * r) 2 = cents # 100 /\ 500 <= cents <= 5000.
Proof.
  intros H0 H1. unfold round.
  change (inject_Z (10 ^ Z.of_nat 2)) with (100 # 1).
  change (Z.to_pos (10 ^ Z.of_nat 2)) with 100%positive.
  eexists. split; [reflexivity|]. split.
  - apply round_half_even_lower.
    apply Qle_trans with (5 * (100 # 1))%Q; [discriminate|].
    apply Qmult_le_compat_r; [|discriminate].
    rewrite <- (Qplus_0_r 5) at 1. apply Qplus_le_r.
    apply Qmult_le_0_compat; [discriminate|exact H0].
  - apply round_half_even_upper.
    apply Qle_trans with ((5 + (50 - 5) * 1) * (100 # 1))%Q; [|discriminate].
    apply Qmult_le_compat_r; [|discriminate].
    apply Qplus_le_r. apply Qmult_le_l; [reflexivity|].
    apply Qlt_le_weak. exact H1.
Qed.

(** ** What a run leaves *)

Lemma ended_drawn rnd fuel file s :
  ended (run rnd fuel file) s -> drawn rnd (inserted s).
Proof.
  intros Hend. pose proof (run_shape rnd fuel file) as Hs.
  destruct Hend as [Hr|[e Hr]]; rewrite Hr in Hs.
  - exact (proj1 Hs).
  - exact (proj1 (proj2 Hs)).
Qed.

Lemma ended_rows rnd fuel file s t :
  ended (run rnd fuel file) s -> In t tables_to_drop ->
  table_rows (working (conn s)) t = rows_in t (inserted s).
Proof.
  intros Hend Hin.
  destruct (ended_working rnd fuel file s Hend) as (Hok & _).
  exact (db_ok_rows file _ _ t Hok Hin).
Qed.

Lemma sample_busy_run :
  exists fuel s, run sample_oracle fuel busy_file = Ok tt s.
Proof.
  destruct (run_completes sample_oracle sample_fresh sample_contract busy_file)
    as [F HF].
  destruct (HF F (le_n F)) as (s & Hs & _). exists F, s. exact Hs.
Qed.

(** X3: every customer a run has stored, finished or stopped, is a row the
    loop has built: the identity, five texts that are not NULL, a tier of
    the three, and an e-mail address that is NULL or a value of the
    generator. *)
Theorem customers_well_formed rnd fuel file s :
  ended (run rnd fuel file) s ->
  forall r, In r (table_rows (working (conn s)) "Customers") ->
    exists id name email phone tier address date,
      r = customer_row id name email phone tier address date /\
      In tier ["Bronze"; "Silver"; "Gold"] /\
      forall e, email = Some e -> exists i, e = faker_email rnd i.
Proof.
  intros Hend r Hin.
  rewrite (ended_rows rnd fuel file s _ Hend Customers_dropped) in Hin.
  exact (dr_customers _ _ (ended_drawn rnd fuel file s Hend) r Hin).
Qed.

Lemma customers_well_formed_sample :
  exists fuel s,
    ended (run sample_oracle fuel busy_file) s /\
    forall r, In r (table_rows (working (conn s)) "Customers") ->
      exists id name email phone tier address date,
        r = customer_row id name email phone tier address date /\
        In tier ["Bronze"; "Silver"; "Gold"] /\
        forall e, email = Some e -> exists i, e = faker_email sample_oracle i.
Proof.
  destruct sample_busy_run as (fuel & s & Hs).
  exists fuel, s. split; [left; exact Hs|].
  apply (customers_well_formed sample_oracle fuel busy_file s). left. exact Hs.
Defined.

(** X4: when the libraries keep their promises, every menu item a run has
    stored has a price of a whole number of cents from 5.00 to 50.00,
    calories from 100 to 1000 and one of the two availabilities. *)
Theorem menu_items_in_range rnd (Hc : lib_contract rnd) fuel file s :
  ended (run rnd fuel file) s ->
  forall r, In r (table_rows (working (conn s)) "Menu_Items") ->
    exists cents cal avail,
      cell "price" r = VReal (cents # 100) /\ 500 <= cents <= 5000 /\
      cell "calories" r = VInt cal /\ 100 <= cal <= 1000 /\
      cell "availability" r = VText avail /\
      In avail ["Available"; "Out of Stock"].
Proof.
  intros Hend r Hin.
  rewrite (ended_rows rnd fuel file s _ Hend Menu_Items_dropped) in Hin.
  destruct (dr_menu _ _ (ended_drawn rnd fuel file s Hend) r Hin)
    as (id & name & cat & ingr & avail & i & j & -> & _ & Hav).
  destruct (random_unit rnd Hc i) as [H0 H1].
  destruct (price_in_range (random_random rnd i) H0 H1) as (cents & Hp & Hb).
  pose proof (randbelow_lt rnd Hc 901 j ltac:(lia)) as Hj.
  exists cents, (100 + Z.of_nat (randbelow rnd 901 j)), avail.
  split; [cbn; rewrite Hp; reflexivity|]. split; [exact Hb|].
  split; [reflexivity|]. split; [lia|]. split; [reflexivity|exact Hav].
Qed.

Lemma menu_items_in_range_sample :
  lib_contract sample_oracle /\
  exists fuel s,
    ended (run sample_oracle fuel busy_file) s /\
    forall r, In r (table_rows (working (conn s)) "Menu_Items") ->
      exists cents cal avail,
        cell "price" r = VReal (cents # 100) /\ 500 <= cents <= 5000 /\
        cell "calories" r = VInt cal /\ 100 <= cal <= 1000 /\
        cell "availability" r = VText avail /\
        In avail ["Available"; "Out of Stock"].
Proof.
  split; [exact sample_contract|].
  destruct sample_busy_run as (fuel & s & Hs).
  exists fuel, s. split; [left; exact Hs|].
  apply (menu_items_in_range sample_oracle sample_contract fuel busy_file s).
  left. exact Hs.
Defined.

(** X5: a finished run leaves the menu items numbered 1 to 100 in the order
    of insertion, whatever the file held: the table is new and
    AUTOINCREMENT starts over. *)
Theorem menu_item_ids rnd fuel file s :
  run rnd fuel file = Ok tt s ->
  map (cell "item_id") (table_rows (disk (conn s)) "Menu_Items") =
  map (fun i => VInt (Z.of_nat i)) (seq 1 100).
Proof.
  intros Hr. pose proof (run_spec rnd fuel file) as Hs. rewrite Hr in Hs.
  destruct Hs as (Hok & _ & _ & _ & _ & _ & Hm & _).
  rewrite (db_ok_rows file _ _ _ Hok Menu_Items_dropped).
  assert (Hdr : drawn rnd (inserted s)).
  { apply (ended_drawn rnd fuel file). left. exact Hr. }
  rewrite (dr_item_ids _ _ Hdr). unfold count in Hm. rewrite Hm. reflexivity.
Qed.

Lemma menu_item_ids_sample :
  exists fuel s,
    run sample_oracle fuel busy_file = Ok tt s /\
    map (cell "item_id") (table_rows (disk (conn s)) "Menu_Items") =
    map (fun i => VInt (Z.of_nat i)) (seq 1 100).
Proof.
  destruct sample_busy_run as (fuel & s & Hs).
  exists fuel, s. split; [exact Hs|].
  exact (menu_item_ids sample_oracle fuel busy_file s Hs).
Defined.

(** X6: the history of a run, finished or stopped, is the customers in the
    order of the Customers table followed by the menu items in the order of
    the Menu_Items table; and no menu item is stored before the 1500th
    customer is. *)
Theorem customers_before_menu_items rnd fuel file s :
  ended (run rnd fuel file) s ->
  inserted s =
  (map (pair "Customers") (table_rows (working (conn s)) "Customers") ++
   map (pair "Menu_Items") (table_rows (working (conn s)) "Menu_Items"))%list /\
  (table_rows (working (conn s)) "Menu_Items" = [] \/
   length (table_rows (working (conn s)) "Customers") = 1500%nat).
Proof.
  intros Hend.
  rewrite (ended_rows rnd fuel file s _ Hend Customers_dropped).
  rewrite (ended_rows rnd fuel file s _ Hend Menu_Items_dropped).
  split; [exact (dr_order _ _ (ended_drawn rnd fuel file s Hend))|].
  destruct Hend as [Hr|[e Hr]].
  - pose proof (run_spec rnd fuel file) as Hs. rewrite Hr in Hs.
    destruct Hs as (_ & _ & _ & _ & _ & Hk & _). right. exact Hk.
  - pose proof (run_shape rnd fuel file) as Hs. rewrite Hr in Hs.
    destruct Hs as (_ & _ & _ & _ & [Hm|Hk]); [left|right; exact Hk].
    apply length_zero_iff_nil. exact Hm.
Qed.

Lemma customers_before_menu_items_sample :
  exists fuel s,
    ended (run sample_oracle fuel busy_file) s /\
    inserted s =
    (map (pair "Customers") (table_rows (working (conn s)) "Customers") ++
     map (pair "Menu_Items") (table_rows (working (conn s)) "Menu_Items"))%list /\
    (table_rows (working (conn s)) "Menu_Items" = [] \/
     length (table_rows (working (conn s)) "Customers") = 1500%nat).
Proof.
  destruct sample_busy_run as (fuel & s & Hs).
  exists fuel, s. split; [left; exact Hs|].
  apply (customers_before_menu_items sample_oracle fuel busy_file s).
  left. exact Hs.
Defined.

Lemma emails_of_row rows e :
  In e (emails_of rows) -> exists r, In r rows /\ cell "email" r = VText e.
Proof.
  unfold emails_of. intros Hin. apply list_elem_of_In in Hin.
  apply list_elem_of_omap in Hin as (r & Hr & He).
  exists r. split; [apply list_elem_of_In; exact Hr|].
  destruct (cell "email" r); try discriminate. injection He as ->. reflexivity.
Qed.

(** X7: when the libraries keep their promises, [generated_emails] at the
    end of a finished run is the set of the e-mail addresses of the stored
    customers, one element for every customer that has an address. *)
Theorem generated_emails_stored rnd (Hc : lib_contract rnd) fuel file s :
  run rnd fuel file = Ok tt s ->
  (forall e, e ∈ generated_emails s <->
             In e (emails_of (table_rows (disk (conn s)) "Customers"))) /\
  size (generated_emails s) =
  length (emails_of (table_rows (disk (conn s)) "Customers")).
Proof.
  intros Hr. pose proof (run_spec rnd fuel file) as Hs. rewrite Hr in Hs.
  destruct Hs as (Hok & _ & _ & _ & (Hnd & Hgen & _) & _).
  pose proof (run_shape rnd fuel file) as Hsh. rewrite Hr in Hsh.
  destruct Hsh as (Hdr & Htr & _).
  rewrite (db_ok_rows file _ _ _ Hok Customers_dropped).
  assert (Hiff : forall e, e ∈ generated_emails s <->
                           In e (emails_of (rows_in "Customers" (inserted s)))).
  { intros e. split; [apply Htr|]. intros Hin. apply Hgen; [exact Hin|].
    destruct (emails_of_row _ _ Hin) as (r & Hrin & He).
    destruct (dr_customers _ _ Hdr r Hrin)
      as (id & name & email & phone & tier & address & date & -> & _ & Hg).
    destruct email as [e0|]; [|discriminate He].
    injection He as ->. destruct (Hg e eq_refl) as [i ->].
    apply (email_nonempty rnd Hc). }
  split; [exact Hiff|].
  assert (Heq : generated_emails s =
                list_to_set (emails_of (rows_in "Customers" (inserted s)))).
  { apply set_eq. intros e. rewrite elem_of_list_to_set, list_elem_of_In.
    apply Hiff. }
  rewrite Heq. apply size_list_to_set. exact Hnd.
Qed.

Lemma generated_emails_stored_sample :
  lib_contract sample_oracle /\
  exists fuel s,
    run sample_oracle fuel busy_file = Ok tt s /\
    (forall e, e ∈ generated_emails s <->
               In e (emails_of (table_rows (disk (conn s)) "Customers"))) /\
    size (generated_emails s) =
    length (emails_of (table_rows (disk (conn s)) "Customers")).
Proof.
  split; [exact sample_contract|].
  destruct sample_busy_run as (fuel & s & Hs).
  exists fuel, s. split; [exact Hs|].
  exact (generated_emails_stored sample_oracle sample_contract fuel busy_file s Hs).
Defined.








(** ** Fuel *)









(** ** One customer *)

(** X13: a round of the customers loop that returns, on a Customers table
    of the script's schema, has stored exactly one row: under the identity
    after the table's counter, at the end of the table and of the history,
    with a NULL e-mail address exactly when the first draw of the round was
    below 0.1.  The row is in an open transaction: the file is as it was,
    and so is every other table. *)
Theorem customer_round rnd fuel s tb s' :
  tables (working (conn s)) !! "Customers" = Some tb ->
  t_schema tb = Customers_schema ->
  customer rnd fuel s = Ok tt s' ->
  exists r,
    inserted s' = (inserted s ++ [("Customers", r)])%list /\
    table_rows (working (conn s')) "Customers" = (t_rows tb ++ [r])%list /\
    cell "customer_id" r = VInt (t_seq tb + 1) /\
    (cell "email" r = VNull <->
     Qltb (random_random rnd (draws s)) (1 # 10) = true) /\
    disk (conn s') = disk (conn s) /\ txn (conn s') <> None /\
    forall t, t <> "Customers" ->
      tables (working (conn s')) !! t = tables (working (conn s)) !! t.
Proof.
  intros Htb Hsch Hr.
  pose proof (customer_effect rnd fuel s tb Htb Hsch) as Heff.
  rewrite Hr in Heff.
  destruct Heff as (name & email & phone & tier & address & date & _ & Hnull &
                    _ & _ & Hw & Hd & Htx & Hlog & _).
  exists (customer_row (t_seq tb + 1) name email phone tier address date).
  split; [exact Hlog|]. split.
  { unfold table_rows. rewrite Hw. cbn [tables].
    rewrite lookup_insert_eq. reflexivity. }
  split; [reflexivity|]. split.
  { change (cell "email" (customer_row (t_seq tb + 1) name email phone tier
                            address date)) with (sql_of_option email).
    rewrite <- Hnull. destruct email; simpl; split; congruence. }
  split; [exact Hd|]. split; [exact Htx|].
  intros t Hne. rewrite Hw. cbn [tables].
  apply lookup_insert_ne. congruence.
Qed.

Lemma customer_round_sample :
  exists s',
    tables (working (conn (at_draw 15 ["mail@0"]))) !! "Customers" =
      Some (Table Customers_schema 0 []) /\
    customer sample_oracle 5 (at_draw 15 ["mail@0"]) = Ok tt s' /\
    exists r,
      inserted s' = (inserted (at_draw 15 ["mail@0"]) ++ [("Customers", r)])%list /\
      table_rows (working (conn s')) "Customers" = ([] ++ [r])%list /\
      cell "customer_id" r = VInt (0 + 1) /\
      (cell "email" r = VNull <->
       Qltb (random_random sample_oracle (draws (at_draw 15 ["mail@0"]))) (1 # 10)
         = true) /\
      disk (conn s') = disk (conn (at_draw 15 ["mail@0"])) /\
      txn (conn s') <> None /\
      forall t, t <> "Customers" ->
        tables (working (conn s')) !! t =
        tables (working (conn (at_draw 15 ["mail@0"]))) !! t.
Proof.
  assert (Htb : tables (working (conn (at_draw 15 ["mail@0"]))) !! "Customers" =
                Some (Table Customers_schema 0 []))
    by (vm_compute; reflexivity).
  assert (Hret : returned (customer sample_oracle 5 (at_draw 15 ["mail@0"])) = true)
    by (vm_compute; reflexivity).
  destruct (customer sample_oracle 5 (at_draw 15 ["mail@0"])) as [[] s'|e s'|] eqn:Hr;
    [|discriminate|discriminate].
  exists s'. split; [exact Htb|]. split; [reflexivity|].
  exact (customer_round sample_oracle 5 (at_draw 15 ["mail@0"])
           (Table Customers_schema 0 []) s' Htb eq_refl Hr).
Defined.
